(** * Travel Route Recorder

    A model of the route, stamp and trip-library logic of the Angular
    component [AppComponent] and of [GeminiService].

    The component is event-driven: every user action is a handler that
    reads and writes the component's signals, may call the AI service,
    [localStorage] or [alert], may throw, and may leave a callback behind
    (a [setTimeout] or a [FileReader] load event).  Handlers are therefore
    written in a state-and-exception monad over a [World] that holds the
    signals, the durable store, the alerts shown so far and the pending
    callbacks.  What the outside world answers (the AI replies, the random
    numbers, the storage quota) is gathered in an environment [Env].

    Scope of the model.  Numbers are exact rationals, so the model covers
    finite numbers only: [Infinity] (which [JSON.parse] gives for a
    literal such as 1e400, and which [JSON.stringify] writes as [null]),
    [NaN] and the rounding of IEEE doubles are not represented.  Signals
    and trips hold values of their declared TypeScript types: a run that
    would put a value of another type into them ends as [Stuck].  Strings
    are sequences of code units below 256. *)

From Stdlib Require Import String Ascii List ZArith QArith Qround Bool Arith.
From Stdlib Require Import Lia DecimalString.
Import ListNotations.

Close Scope Q_scope.
Open Scope string_scope.
Open Scope list_scope.

Notation "s1 +++ s2" := (String.append s1 s2)
  (at level 60, right associativity) : string_scope.

(** ** JavaScript values *)

Definition number := Q.

(** [x !== 0] on numbers. *)
Definition notZero (x : number) : bool := negb (Qeq_bool x 0).

(** [s.length > 0], which is also the truthiness of a string. *)
Definition nonEmpty (s : string) : bool :=
  match s with
  | EmptyString => false
  | String _ _ => true
  end.

(** Truthiness of [string | null | undefined]. *)
Definition truthyOpt (o : option string) : bool :=
  match o with
  | Some s => nonEmpty s
  | None => false
  end.

(** [o || null] and [o || undefined]: the absent value is [None] both ways. *)
Definition orNull (o : option string) : option string :=
  if truthyOpt o then o else None.

(** The white space [String.prototype.trim] removes, among code units
    below 256: TAB, LF, VT, FF, CR, SP and NBSP. *)
Definition isWhiteSpace (c : ascii) : bool :=
  let n := nat_of_ascii c in
  (Nat.leb 9 n && Nat.leb n 13) || Nat.eqb n 32 || Nat.eqb n 160.

Fixpoint trimStart (s : string) : string :=
  match s with
  | EmptyString => EmptyString
  | String c rest => if isWhiteSpace c then trimStart rest else s
  end.

Fixpoint trimEnd (s : string) : string :=
  match s with
  | EmptyString => EmptyString
  | String c rest =>
      let rest' := trimEnd rest in
      if isWhiteSpace c && negb (nonEmpty rest') then EmptyString
      else String c rest'
  end.

Definition trim (s : string) : string := trimEnd (trimStart s).

(** [s.split(sep)] for a one-character separator. *)
Fixpoint split (sep : ascii) (s : string) : list string :=
  match s with
  | EmptyString => [EmptyString]
  | String c rest =>
      if Ascii.eqb c sep then EmptyString :: split sep rest
      else match split sep rest with
           | [] => [String c EmptyString]
           | piece :: pieces => String c piece :: pieces
           end
  end.

(** A number printed in a template literal, for the lengths the status
    line shows. *)
Definition showNat (n : nat) : string := NilZero.string_of_uint (Nat.to_uint n).

Set Warnings "-register-all".

(** What [JSON.parse] can return, and [undefined] for a property that is
    not there.  An object is the list of its own properties. *)
Inductive JsValue : Type :=
| JUndefined
| JNull
| JBool (b : bool)
| JNum (x : number)
| JStr (s : string)
| JArr (items : list JsValue)
| JObj (props : list (string * JsValue)).

Definition truthy (v : JsValue) : bool :=
  match v with
  | JUndefined | JNull => false
  | JBool b => b
  | JNum x => notZero x
  | JStr s => nonEmpty s
  | JArr _ | JObj _ => true
  end.

(** [Array.isArray(v)]. *)
Definition isArray (v : JsValue) : bool :=
  match v with
  | JArr _ => true
  | _ => false
  end.

Fixpoint lookupProp (k : string) (props : list (string * JsValue)) : JsValue :=
  match props with
  | [] => JUndefined
  | (k', v) :: rest => if String.eqb k k' then v else lookupProp k rest
  end.

(** A thrown JavaScript error, with the two fields the handlers inspect. *)
Module JsError.
Record t := mk {
  status : option string;
  code : option Z;
  message : string
}.
End JsError.

Definition TypeError (msg : string) : JsError.t := JsError.mk None None msg.
Definition Error (msg : string) : JsError.t := JsError.mk None None msg.

(** [e.status === 'RESOURCE_EXHAUSTED' || e.code === 429]. *)
Definition isQuotaError (e : JsError.t) : bool :=
  match JsError.status e with
  | Some s => String.eqb s "RESOURCE_EXHAUSTED"
  | None => false
  end
  || match JsError.code e with
     | Some c => Z.eqb c 429
     | None => false
     end.

(** The result of running code that may throw. *)
Inductive Res (A : Type) : Type :=
| Ok (a : A)
| Throw (e : JsError.t).
Arguments Ok {A} a.
Arguments Throw {A} e.

(** [v.k] for a property [k] that no prototype defines: a [TypeError] on
    [null] and [undefined], the own property of an object, and
    [undefined] on every other value. *)
Definition getProp (v : JsValue) (k : string) : Res JsValue :=
  match v with
  | JUndefined | JNull =>
      Throw (TypeError ("Cannot read properties of null (reading '" +++ k +++ "')"))
  | JObj props => Ok (lookupProp k props)
  | _ => Ok JUndefined
  end.

(** ** Data model *)

(** One entry of the Coordinate Resolver response (gemini.service.ts). *)
Module LocationCoordinate.
Record t := mk {
  name : string;
  lat : option number;
  lng : option number
}.
End LocationCoordinate.

Module ValidCoordinate.
Record t := mk {
  name : string;
  lat : number;
  lng : number
}.
End ValidCoordinate.

Module Stamp.
Record t := mk {
  id : string;
  name : string;
  rotation : number;
  color : string;
  date : string;
  time : string;
  imageUrl : option string;
  description : option string;
  selected : bool
}.
End Stamp.

Inductive MapHeight : Type := small | medium | large.

(** The [styleConfig] of a saved trip.  [style] is declared [string] and
    is put into the [mapStyle] signal through a cast, so the signal is a
    string too. *)
Module StyleConfig.
Record t := mk {
  style : string;
  color : string;
  weight : number;
  customIconUrl : option string;
  mapHeight : option MapHeight
}.
End StyleConfig.

(** A JSON value that is not an array and is truthy or not. *)
Inductive NonArray : Type :=
| NaBool (b : bool)
| NaNum (x : number)
| NaStr (s : string)
| NaObj (props : list (string * JsValue)).

(** The [coordinates] of a trip.  The field is declared
    [ValidCoordinate[]]; a trip read from a file is cast to [SavedTrip]
    unchecked, so at run time the field holds whatever the file had. *)
Inductive Coordinates : Type :=
| CoordArray (items : list ValidCoordinate.t)
| CoordOther (v : NonArray).

Module SavedTrip.
Record t := mk {
  id : string;
  name : string;
  date : number;
  locations : string;
  coordinates : Coordinates;
  stamps : list Stamp.t;
  styleConfig : option StyleConfig.t
}.
End SavedTrip.

(** A name in the missing list: [item.name || locations[index]] is
    [undefined] when the response is longer than the input. *)
Definition MissingName := option string.

(** A file picked in a file input: its size in bytes, what
    [FileReader.readAsDataURL] yields ([None] when reading fails, in which
    case the load event never fires), and what [JSON.parse] makes of its
    text ([None] when it throws a [SyntaxError]). *)
Module File.
Record t := mk {
  size : N;
  dataURL : option string;
  json : option JsValue
}.
End File.

(** Callbacks left behind by a handler: the [setTimeout] of [loadTrip],
    the [reader.onload] of [onUploadIcon] and of [onImportTrip], and the
    [setTimeout] of [exportMapImage]. *)
Inductive Task : Type :=
| LoadTripTimeout (trip : SavedTrip.t)
| IconReaderOnload (file : File.t)
| ImportReaderOnload (file : File.t)
| ExportTimeout.

(** ** The world a handler runs in

    The first eighteen fields are the signals of [AppComponent], in the
    order of the source.  [localStorage] is the value stored under the key
    [travel_route_trips] ([None] when the key is absent), held as the list
    that [JSON.parse] gives back.  [alerts] are the messages shown with
    [alert], oldest first.  [timers] are the callbacks waiting to run,
    oldest first.  [idsDrawn] and [randomsDrawn] count the calls made to
    [generateId] and to [Math.random] for a rotation. *)
Record World := mkWorld {
  locationInput : string;
  isLoading : bool;
  isExporting : bool;
  isGeneratingIcon : bool;
  mapStyle : string;
  routeColor : string;
  routeWeight : number;
  customIconUrl : option string;
  mapHeight : MapHeight;
  routeCoordinates : list ValidCoordinate.t;
  missingLocations : list MissingName;
  stamps : list Stamp.t;
  statusMessage : string;
  savedTrips : list SavedTrip.t;
  tripToDelete : option string;
  editingStamp : option Stamp.t;
  isGeneratingStamp : bool;
  stampPrompt : string;
  localStorage : option (list SavedTrip.t);
  alerts : list string;
  timers : list Task;
  idsDrawn : nat;
  randomsDrawn : nat
}.

Definition set_locationInput (v : string) (w : World) : World :=
  mkWorld v (isLoading w) (isExporting w) (isGeneratingIcon w) (mapStyle w)
    (routeColor w) (routeWeight w) (customIconUrl w) (mapHeight w)
    (routeCoordinates w) (missingLocations w) (stamps w) (statusMessage w)
    (savedTrips w) (tripToDelete w) (editingStamp w) (isGeneratingStamp w)
    (stampPrompt w) (localStorage w) (alerts w) (timers w) (idsDrawn w)
    (randomsDrawn w).

Definition set_isLoading (v : bool) (w : World) : World :=
  mkWorld (locationInput w) v (isExporting w) (isGeneratingIcon w)
    (mapStyle w) (routeColor w) (routeWeight w) (customIconUrl w)
    (mapHeight w) (routeCoordinates w) (missingLocations w) (stamps w)
    (statusMessage w) (savedTrips w) (tripToDelete w) (editingStamp w)
    (isGeneratingStamp w) (stampPrompt w) (localStorage w) (alerts w)
    (timers w) (idsDrawn w) (randomsDrawn w).

Definition set_isExporting (v : bool) (w : World) : World :=
  mkWorld (locationInput w) (isLoading w) v (isGeneratingIcon w)
    (mapStyle w) (routeColor w) (routeWeight w) (customIconUrl w)
    (mapHeight w) (routeCoordinates w) (missingLocations w) (stamps w)
    (statusMessage w) (savedTrips w) (tripToDelete w) (editingStamp w)
    (isGeneratingStamp w) (stampPrompt w) (localStorage w) (alerts w)
    (timers w) (idsDrawn w) (randomsDrawn w).

Definition set_isGeneratingIcon (v : bool) (w : World) : World :=
  mkWorld (locationInput w) (isLoading w) (isExporting w) v (mapStyle w)
    (routeColor w) (routeWeight w) (customIconUrl w) (mapHeight w)
    (routeCoordinates w) (missingLocations w) (stamps w) (statusMessage w)
    (savedTrips w) (tripToDelete w) (editingStamp w) (isGeneratingStamp w)
    (stampPrompt w) (localStorage w) (alerts w) (timers w) (idsDrawn w)
    (randomsDrawn w).

Definition set_mapStyle (v : string) (w : World) : World :=
  mkWorld (locationInput w) (isLoading w) (isExporting w)
    (isGeneratingIcon w) v (routeColor w) (routeWeight w) (customIconUrl w)
    (mapHeight w) (routeCoordinates w) (missingLocations w) (stamps w)
    (statusMessage w) (savedTrips w) (tripToDelete w) (editingStamp w)
    (isGeneratingStamp w) (stampPrompt w) (localStorage w) (alerts w)
    (timers w) (idsDrawn w) (randomsDrawn w).

Definition set_routeColor (v : string) (w : World) : World :=
  mkWorld (locationInput w) (isLoading w) (isExporting w)
    (isGeneratingIcon w) (mapStyle w) v (routeWeight w) (customIconUrl w)
    (mapHeight w) (routeCoordinates w) (missingLocations w) (stamps w)
    (statusMessage w) (savedTrips w) (tripToDelete w) (editingStamp w)
    (isGeneratingStamp w) (stampPrompt w) (localStorage w) (alerts w)
    (timers w) (idsDrawn w) (randomsDrawn w).

Definition set_routeWeight (v : number) (w : World) : World :=
  mkWorld (locationInput w) (isLoading w) (isExporting w)
    (isGeneratingIcon w) (mapStyle w) (routeColor w) v (customIconUrl w)
    (mapHeight w) (routeCoordinates w) (missingLocations w) (stamps w)
    (statusMessage w) (savedTrips w) (tripToDelete w) (editingStamp w)
    (isGeneratingStamp w) (stampPrompt w) (localStorage w) (alerts w)
    (timers w) (idsDrawn w) (randomsDrawn w).

Definition set_customIconUrl (v : option string) (w : World) : World :=
  mkWorld (locationInput w) (isLoading w) (isExporting w)
    (isGeneratingIcon w) (mapStyle w) (routeColor w) (routeWeight w) v
    (mapHeight w) (routeCoordinates w) (missingLocations w) (stamps w)
    (statusMessage w) (savedTrips w) (tripToDelete w) (editingStamp w)
    (isGeneratingStamp w) (stampPrompt w) (localStorage w) (alerts w)
    (timers w) (idsDrawn w) (randomsDrawn w).

Definition set_mapHeight (v : MapHeight) (w : World) : World :=
  mkWorld (locationInput w) (isLoading w) (isExporting w)
    (isGeneratingIcon w) (mapStyle w) (routeColor w) (routeWeight w)
    (customIconUrl w) v (routeCoordinates w) (missingLocations w) (stamps w)
    (statusMessage w) (savedTrips w) (tripToDelete w) (editingStamp w)
    (isGeneratingStamp w) (stampPrompt w) (localStorage w) (alerts w)
    (timers w) (idsDrawn w) (randomsDrawn w).

Definition set_routeCoordinates (v : list ValidCoordinate.t) (w : World) : World :=
  mkWorld (locationInput w) (isLoading w) (isExporting w)
    (isGeneratingIcon w) (mapStyle w) (routeColor w) (routeWeight w)
    (customIconUrl w) (mapHeight w) v (missingLocations w) (stamps w)
    (statusMessage w) (savedTrips w) (tripToDelete w) (editingStamp w)
    (isGeneratingStamp w) (stampPrompt w) (localStorage w) (alerts w)
    (timers w) (idsDrawn w) (randomsDrawn w).

Definition set_missingLocations (v : list MissingName) (w : World) : World :=
  mkWorld (locationInput w) (isLoading w) (isExporting w)
    (isGeneratingIcon w) (mapStyle w) (routeColor w) (routeWeight w)
    (customIconUrl w) (mapHeight w) (routeCoordinates w) v (stamps w)
    (statusMessage w) (savedTrips w) (tripToDelete w) (editingStamp w)
    (isGeneratingStamp w) (stampPrompt w) (localStorage w) (alerts w)
    (timers w) (idsDrawn w) (randomsDrawn w).

Definition set_stamps (v : list Stamp.t) (w : World) : World :=
  mkWorld (locationInput w) (isLoading w) (isExporting w)
    (isGeneratingIcon w) (mapStyle w) (routeColor w) (routeWeight w)
    (customIconUrl w) (mapHeight w) (routeCoordinates w)
    (missingLocations w) v (statusMessage w) (savedTrips w) (tripToDelete w)
    (editingStamp w) (isGeneratingStamp w) (stampPrompt w) (localStorage w)
    (alerts w) (timers w) (idsDrawn w) (randomsDrawn w).

Definition set_statusMessage (v : string) (w : World) : World :=
  mkWorld (locationInput w) (isLoading w) (isExporting w)
    (isGeneratingIcon w) (mapStyle w) (routeColor w) (routeWeight w)
    (customIconUrl w) (mapHeight w) (routeCoordinates w)
    (missingLocations w) (stamps w) v (savedTrips w) (tripToDelete w)
    (editingStamp w) (isGeneratingStamp w) (stampPrompt w) (localStorage w)
    (alerts w) (timers w) (idsDrawn w) (randomsDrawn w).

Definition set_savedTrips (v : list SavedTrip.t) (w : World) : World :=
  mkWorld (locationInput w) (isLoading w) (isExporting w)
    (isGeneratingIcon w) (mapStyle w) (routeColor w) (routeWeight w)
    (customIconUrl w) (mapHeight w) (routeCoordinates w)
    (missingLocations w) (stamps w) (statusMessage w) v (tripToDelete w)
    (editingStamp w) (isGeneratingStamp w) (stampPrompt w) (localStorage w)
    (alerts w) (timers w) (idsDrawn w) (randomsDrawn w).

Definition set_tripToDelete (v : option string) (w : World) : World :=
  mkWorld (locationInput w) (isLoading w) (isExporting w)
    (isGeneratingIcon w) (mapStyle w) (routeColor w) (routeWeight w)
    (customIconUrl w) (mapHeight w) (routeCoordinates w)
    (missingLocations w) (stamps w) (statusMessage w) (savedTrips w) v
    (editingStamp w) (isGeneratingStamp w) (stampPrompt w) (localStorage w)
    (alerts w) (timers w) (idsDrawn w) (randomsDrawn w).

Definition set_editingStamp (v : option Stamp.t) (w : World) : World :=
  mkWorld (locationInput w) (isLoading w) (isExporting w)
    (isGeneratingIcon w) (mapStyle w) (routeColor w) (routeWeight w)
    (customIconUrl w) (mapHeight w) (routeCoordinates w)
    (missingLocations w) (stamps w) (statusMessage w) (savedTrips w)
    (tripToDelete w) v (isGeneratingStamp w) (stampPrompt w)
    (localStorage w) (alerts w) (timers w) (idsDrawn w) (randomsDrawn w).

Definition set_isGeneratingStamp (v : bool) (w : World) : World :=
  mkWorld (locationInput w) (isLoading w) (isExporting w)
    (isGeneratingIcon w) (mapStyle w) (routeColor w) (routeWeight w)
    (customIconUrl w) (mapHeight w) (routeCoordinates w)
    (missingLocations w) (stamps w) (statusMessage w) (savedTrips w)
    (tripToDelete w) (editingStamp w) v (stampPrompt w) (localStorage w)
    (alerts w) (timers w) (idsDrawn w) (randomsDrawn w).

Definition set_stampPrompt (v : string) (w : World) : World :=
  mkWorld (locationInput w) (isLoading w) (isExporting w)
    (isGeneratingIcon w) (mapStyle w) (routeColor w) (routeWeight w)
    (customIconUrl w) (mapHeight w) (routeCoordinates w)
    (missingLocations w) (stamps w) (statusMessage w) (savedTrips w)
    (tripToDelete w) (editingStamp w) (isGeneratingStamp w) v
    (localStorage w) (alerts w) (timers w) (idsDrawn w) (randomsDrawn w).

Definition set_localStorage (v : option (list SavedTrip.t)) (w : World) : World :=
  mkWorld (locationInput w) (isLoading w) (isExporting w)
    (isGeneratingIcon w) (mapStyle w) (routeColor w) (routeWeight w)
    (customIconUrl w) (mapHeight w) (routeCoordinates w)
    (missingLocations w) (stamps w) (statusMessage w) (savedTrips w)
    (tripToDelete w) (editingStamp w) (isGeneratingStamp w) (stampPrompt w)
    v (alerts w) (timers w) (idsDrawn w) (randomsDrawn w).

Definition set_alerts (v : list string) (w : World) : World :=
  mkWorld (locationInput w) (isLoading w) (isExporting w)
    (isGeneratingIcon w) (mapStyle w) (routeColor w) (routeWeight w)
    (customIconUrl w) (mapHeight w) (routeCoordinates w)
    (missingLocations w) (stamps w) (statusMessage w) (savedTrips w)
    (tripToDelete w) (editingStamp w) (isGeneratingStamp w) (stampPrompt w)
    (localStorage w) v (timers w) (idsDrawn w) (randomsDrawn w).

Definition set_timers (v : list Task) (w : World) : World :=
  mkWorld (locationInput w) (isLoading w) (isExporting w)
    (isGeneratingIcon w) (mapStyle w) (routeColor w) (routeWeight w)
    (customIconUrl w) (mapHeight w) (routeCoordinates w)
    (missingLocations w) (stamps w) (statusMessage w) (savedTrips w)
    (tripToDelete w) (editingStamp w) (isGeneratingStamp w) (stampPrompt w)
    (localStorage w) (alerts w) v (idsDrawn w) (randomsDrawn w).

Definition set_idsDrawn (v : nat) (w : World) : World :=
  mkWorld (locationInput w) (isLoading w) (isExporting w)
    (isGeneratingIcon w) (mapStyle w) (routeColor w) (routeWeight w)
    (customIconUrl w) (mapHeight w) (routeCoordinates w)
    (missingLocations w) (stamps w) (statusMessage w) (savedTrips w)
    (tripToDelete w) (editingStamp w) (isGeneratingStamp w) (stampPrompt w)
    (localStorage w) (alerts w) (timers w) v (randomsDrawn w).

Definition set_randomsDrawn (v : nat) (w : World) : World :=
  mkWorld (locationInput w) (isLoading w) (isExporting w)
    (isGeneratingIcon w) (mapStyle w) (routeColor w) (routeWeight w)
    (customIconUrl w) (mapHeight w) (routeCoordinates w)
    (missingLocations w) (stamps w) (statusMessage w) (savedTrips w)
    (tripToDelete w) (editingStamp w) (isGeneratingStamp w) (stampPrompt w)
    (localStorage w) (alerts w) (timers w) (idsDrawn w) v.

(** ** Handlers as computations

    A computation takes the world and returns an outcome and the world it
    leaves.  State changes made before a [throw] stay, as in JavaScript.
    [Stuck] marks a run that reached a value the types of this model
    cannot hold (a document cast to [SavedTrip] whose fields are not of
    the declared types); nothing is claimed about such a run. *)
Inductive Outcome (A : Type) : Type :=
| Returned (a : A)
| Thrown (e : JsError.t)
| Stuck.
Arguments Returned {A} a.
Arguments Thrown {A} e.
Arguments Stuck {A}.

Definition M (A : Type) : Type := World -> Outcome A * World.

Definition ret {A} (a : A) : M A := fun w => (Returned a, w).

Definition bind {A B} (m : M A) (k : A -> M B) : M B :=
  fun w =>
    match m w with
    | (Returned a, w') => k a w'
    | (Thrown e, w') => (Thrown e, w')
    | (Stuck, w') => (Stuck, w')
    end.

Notation "x <- m ;; k" := (bind m (fun x => k))
  (at level 61, m at next level, right associativity).
Notation "m ;; k" := (bind m (fun _ => k))
  (at level 61, right associativity).

Definition throw {A} (e : JsError.t) : M A := fun w => (Thrown e, w).
Definition stuck {A} : M A := fun w => (Stuck, w).
Definition get : M World := fun w => (Returned w, w).
Definition gets {A} (f : World -> A) : M A := fun w => (Returned (f w), w).
Definition modify (f : World -> World) : M unit := fun w => (Returned tt, f w).

Definition liftRes {A} (r : Res A) : M A :=
  match r with
  | Ok a => ret a
  | Throw e => throw e
  end.

(** [try { body } catch (e) { handler e }]. *)
Definition tryCatch {A} (body : M A) (handler : JsError.t -> M A) : M A :=
  fun w =>
    match body w with
    | (Thrown e, w') => handler e w'
    | r => r
    end.

(** [try { body } finally { cleanup }]: the cleanup runs however the body
    ends, and the body's outcome stands unless the cleanup throws. *)
Definition tryFinally {A} (body : M A) (cleanup : M unit) : M A :=
  fun w =>
    match body w with
    | (Stuck, w') => (Stuck, w')
    | (r, w') =>
        match cleanup w' with
        | (Returned _, w'') => (r, w'')
        | (Thrown e, w'') => (Thrown e, w'')
        | (Stuck, w'') => (Stuck, w'')
        end
    end.

Definition exec {A} (m : M A) (w : World) : World := snd (m w).

Definition alert (msg : string) : M unit :=
  modify (fun w => set_alerts (alerts w ++ [msg]) w).

(** [setTimeout] and [reader.onload = ...; reader.read...]: the callback
    joins the queue. *)
Definition later (task : Task) : M unit :=
  modify (fun w => set_timers (timers w ++ [task]) w).

(** ** The outside world *)

(** What [JSON.parse(response.text)] is, for the geocoding call. *)
Inductive GeocodeBody : Type :=
| BodyNotJson
| BodyNull
| BodyObject (waypoints : option (list LocationCoordinate.t)).

Inductive ContentReply (A : Type) : Type :=
| ReplyError (e : JsError.t)
| Reply (a : A).
Arguments ReplyError {A} e.
Arguments Reply {A} a.

Module Image.
Record t := mk { imageBytes : option string }.
End Image.

Module GeneratedImage.
Record t := mk { image : option Image.t }.
End GeneratedImage.

Module Env.
Record t := mk {
  (* new Date().toLocaleDateString() *)
  today : string;
  (* Date.now() *)
  now : number;
  (* the n-th string generateId returns *)
  newId : nat -> string;
  (* the n-th Math.random() drawn for a rotation *)
  random : nat -> number;
  (* generateContent for the geocoding prompt built from the names *)
  geocode : list string -> ContentReply GeocodeBody;
  (* generateContent for the image analysis: the response's text *)
  analyze : string -> string -> ContentReply (option string);
  (* generateImages for a prompt: the response's generatedImages *)
  imagen : string -> ContentReply (option (list GeneratedImage.t));
  (* document.getElementById(id) and html2canvas on it, then
     canvas.toDataURL: None when there is no such element *)
  captureStamp : string -> option (ContentReply string);
  (* the same for the element map-card: the promise of html2canvas, then
     toDataURL inside its then-callback *)
  captureMap : option (ContentReply (ContentReply string));
  (* whether localStorage.setItem takes the serialised list *)
  storageFits : list SavedTrip.t -> bool
}.
End Env.

Definition await {A} (r : ContentReply A) : M A :=
  match r with
  | ReplyError e => throw e
  | Reply a => ret a
  end.

(** Unfolds the operations of the monad in a goal, and nothing else. *)
Ltac run_handler :=
  cbv beta iota delta
    [bind gets get modify ret throw stuck tryCatch tryFinally await liftRes exec
     alert later fst snd].

(** ** Classifying the resolver's entries (onGenerateRoute, step 3) *)

(** [item.name || locations[index]]. *)
Definition missingName (item : LocationCoordinate.t) (index : nat)
    (locations : list string) : MissingName :=
  if nonEmpty (LocationCoordinate.name item)
  then Some (LocationCoordinate.name item)
  else nth_error locations index.

(** The body of the [forEach] callback: the condition
    [item.lat !== null && item.lng !== null && item.lat !== 0 &&
    item.lng !== 0] and the value pushed on either side. *)
Definition classify (item : LocationCoordinate.t) (index : nat)
    (locations : list string) : ValidCoordinate.t + MissingName :=
  match LocationCoordinate.lat item, LocationCoordinate.lng item with
  | Some la, Some ln =>
      if notZero la && notZero ln
      then inl (ValidCoordinate.mk (LocationCoordinate.name item) la ln)
      else inr (missingName item index locations)
  | _, _ => inr (missingName item index locations)
  end.

(** [rawCoords.forEach((item, index) => ...)] pushing onto [validCoords]
    and [missing]. *)
Fixpoint filterValidVsMissing (rawCoords : list LocationCoordinate.t)
    (index : nat) (locations : list string)
    (validCoords : list ValidCoordinate.t) (missing : list MissingName)
    : list ValidCoordinate.t * list MissingName :=
  match rawCoords with
  | [] => (validCoords, missing)
  | item :: rest =>
      match classify item index locations with
      | inl c =>
          filterValidVsMissing rest (S index) locations (validCoords ++ [c]) missing
      | inr m =>
          filterValidVsMissing rest (S index) locations validCoords (missing ++ [m])
      end
  end.

(** [rawInput.split(',').map(s => s.trim()).filter(s => s.length > 0)]. *)
Definition parseLocations (rawInput : string) : list string :=
  filter nonEmpty (map trim (split "," rawInput)).

(** The palette of [createVisualStamps]. *)
Definition colors : list string :=
  [ "border-indigo-600 text-indigo-800";
    "border-rose-600 text-rose-800";
    "border-emerald-600 text-emerald-800";
    "border-amber-600 text-amber-800";
    "border-blue-600 text-blue-800" ].

(** [Math.floor(r * 30) - 15] for a draw [r] of [Math.random()]. *)
Definition rotationOf (r : number) : number :=
  inject_Z (Qfloor (r * 30)%Q - 15).

(** [{...c}] and [{...s}]: a new object with the same fields. *)
Definition copyCoordinate (c : ValidCoordinate.t) : ValidCoordinate.t :=
  ValidCoordinate.mk (ValidCoordinate.name c) (ValidCoordinate.lat c)
    (ValidCoordinate.lng c).

Definition copyStamp (s : Stamp.t) : Stamp.t :=
  Stamp.mk (Stamp.id s) (Stamp.name s) (Stamp.rotation s) (Stamp.color s)
    (Stamp.date s) (Stamp.time s) (Stamp.imageUrl s) (Stamp.description s)
    (Stamp.selected s).

(** ** The regular expression of onUploadIcon *)

Fixpoint startsWith (p s : string) : bool :=
  match p, s with
  | EmptyString, _ => true
  | String a p', String b s' => Ascii.eqb a b && startsWith p' s'
  | String _ _, EmptyString => false
  end.

Fixpoint skip (n : nat) (s : string) : string :=
  match n, s with
  | S n', String _ s' => skip n' s'
  | _, _ => s
  end.

(** The rightmost place where [sep] occurs in [s] with something after
    it: the text before it and the text after it. *)
Fixpoint splitLast (sep s : string) : option (string * string) :=
  match s with
  | EmptyString => None
  | String c rest =>
      match splitLast sep rest with
      | Some (before, after) => Some (String c before, after)
      | None =>
          if startsWith sep s && nonEmpty (skip (String.length sep) s)
          then Some (EmptyString, skip (String.length sep) s)
          else None
      end
  end.

(** Line terminators, which [.] does not match: LF and CR. *)
Definition isLineTerminator (c : ascii) : bool :=
  Nat.eqb (nat_of_ascii c) 10 || Nat.eqb (nat_of_ascii c) 13.

Fixpoint noLineTerminator (s : string) : bool :=
  match s with
  | EmptyString => true
  | String c rest => negb (isLineTerminator c) && noLineTerminator rest
  end.

(** [base64Full.match(/^data:(.+);base64,(.+)$/)]: the two groups, the
    first one greedy, or [None] for [null]. *)
Definition matchDataUrl (base64Full : string) : option (string * string) :=
  if startsWith "data:" base64Full && noLineTerminator base64Full then
    match splitLast ";base64," (skip 5 base64Full) with
    | Some (mimeType, base64Data) =>
        if nonEmpty mimeType then Some (mimeType, base64Data) else None
    | None => None
    end
  else None.

(** ** Reading a document as a [SavedTrip] *)

Definition asString (v : JsValue) : option string :=
  match v with
  | JStr s => Some s
  | _ => None
  end.

Definition asNumber (v : JsValue) : option number :=
  match v with
  | JNum x => Some x
  | _ => None
  end.

Definition asBool (v : JsValue) : option bool :=
  match v with
  | JBool b => Some b
  | _ => None
  end.

(** An optional string property: absent, or a string. *)
Definition asOptString (v : JsValue) : option (option string) :=
  match v with
  | JUndefined => Some None
  | JStr s => Some (Some s)
  | _ => None
  end.

Definition asMapHeight (v : JsValue) : option (option MapHeight) :=
  match v with
  | JUndefined => Some None
  | JStr s =>
      if String.eqb s "small" then Some (Some small)
      else if String.eqb s "medium" then Some (Some medium)
      else if String.eqb s "large" then Some (Some large)
      else None
  | _ => None
  end.

Definition optBind {A B} (o : option A) (k : A -> option B) : option B :=
  match o with
  | Some a => k a
  | None => None
  end.

Fixpoint allSome {A} (l : list (option A)) : option (list A) :=
  match l with
  | [] => Some []
  | Some a :: rest => optBind (allSome rest) (fun r => Some (a :: r))
  | None :: _ => None
  end.

Definition asCoordinate (v : JsValue) : option ValidCoordinate.t :=
  match v with
  | JObj props =>
      optBind (asString (lookupProp "name" props)) (fun name =>
      optBind (asNumber (lookupProp "lat" props)) (fun lat =>
      optBind (asNumber (lookupProp "lng" props)) (fun lng =>
      Some (ValidCoordinate.mk name lat lng))))
  | _ => None
  end.

Definition asStamp (v : JsValue) : option Stamp.t :=
  match v with
  | JObj props =>
      optBind (asString (lookupProp "id" props)) (fun id =>
      optBind (asString (lookupProp "name" props)) (fun name =>
      optBind (asNumber (lookupProp "rotation" props)) (fun rotation =>
      optBind (asString (lookupProp "color" props)) (fun color =>
      optBind (asString (lookupProp "date" props)) (fun date =>
      optBind (asString (lookupProp "time" props)) (fun time =>
      optBind (asOptString (lookupProp "imageUrl" props)) (fun imageUrl =>
      optBind (asOptString (lookupProp "description" props)) (fun description =>
      optBind (asBool (lookupProp "selected" props)) (fun selected =>
      Some (Stamp.mk id name rotation color date time imageUrl description
              selected))))))))))
  | _ => None
  end.

Definition asStyleConfig (v : JsValue) : option (option StyleConfig.t) :=
  match v with
  | JUndefined => Some None
  | JObj props =>
      optBind (asString (lookupProp "style" props)) (fun style =>
      optBind (asString (lookupProp "color" props)) (fun color =>
      optBind (asNumber (lookupProp "weight" props)) (fun weight =>
      optBind (asOptString (lookupProp "customIconUrl" props)) (fun icon =>
      optBind (asMapHeight (lookupProp "mapHeight" props)) (fun height =>
      Some (Some (StyleConfig.mk style color weight icon height)))))))
  | _ => None
  end.

Definition asCoordinates (v : JsValue) : option Coordinates :=
  match v with
  | JArr items => optBind (allSome (map asCoordinate items)) (fun l => Some (CoordArray l))
  | JBool b => Some (CoordOther (NaBool b))
  | JNum x => Some (CoordOther (NaNum x))
  | JStr s => Some (CoordOther (NaStr s))
  | JObj props => Some (CoordOther (NaObj props))
  | JUndefined | JNull => None
  end.

Definition asStamps (v : JsValue) : option (list Stamp.t) :=
  match v with
  | JArr items => allSome (map asStamp items)
  | _ => None
  end.

(** The cast [const trip: SavedTrip = JSON.parse(...)]: the document seen
    at the declared types, with [coordinates] as found.  [None] when a
    field is not of its declared type. *)
Definition asSavedTrip (v : JsValue) : option SavedTrip.t :=
  match v with
  | JObj props =>
      optBind (asString (lookupProp "id" props)) (fun id =>
      optBind (asString (lookupProp "name" props)) (fun name =>
      optBind (asNumber (lookupProp "date" props)) (fun date =>
      optBind (asString (lookupProp "locations" props)) (fun locations =>
      optBind (asCoordinates (lookupProp "coordinates" props)) (fun coordinates =>
      optBind (asStamps (lookupProp "stamps" props)) (fun stamps =>
      optBind (asStyleConfig (lookupProp "styleConfig" props)) (fun styleConfig =>
      Some (SavedTrip.mk id name date locations coordinates stamps
              styleConfig))))))))
  | _ => None
  end.

(** ** GeminiService and AppComponent *)

Section Handlers.

Variable env : Env.t.

(** [GeminiService.getCoordinatesForLocations]: the call, [JSON.parse],
    [json.waypoints || []]; whatever is thrown is logged and thrown again. *)
Definition getCoordinatesForLocations (locations : list string)
    : M (list LocationCoordinate.t) :=
  tryCatch
    (body <- await (Env.geocode env locations) ;;
     match body with
     | BodyNotJson => throw (Error "SyntaxError: Unexpected token")
     | BodyNull => throw (TypeError "Cannot read properties of null (reading 'waypoints')")
     | BodyObject (Some waypoints) => ret waypoints
     | BodyObject None => ret []
     end)
    (fun e => throw e).

(** The prompt of the second call of [generateCustomIcon]. *)
Definition iconPrompt (subject : string) : string :=
  "A simple, flat, minimalist vector icon of " +++ subject +++
  ". The icon should be circular or contained within a simple shape. Solid, vivid colors. White background. No text. High contrast.".

(** [response.generatedImages[0].image.imageBytes], then the template
    literal, in which an absent [imageBytes] prints as [undefined]. *)
Definition firstImageUrl (generatedImages : option (list GeneratedImage.t))
    : M string :=
  match generatedImages with
  | None => throw (TypeError "Cannot read properties of undefined (reading '0')")
  | Some [] => throw (TypeError "Cannot read properties of undefined (reading 'image')")
  | Some (first :: _) =>
      match GeneratedImage.image first with
      | None => throw (TypeError "Cannot read properties of undefined (reading 'imageBytes')")
      | Some img =>
          match Image.imageBytes img with
          | Some generatedBytes => ret ("data:image/jpeg;base64," +++ generatedBytes)
          | None => ret "data:image/jpeg;base64,undefined"
          end
      end
  end.

(** The [try] block of [generateCustomIcon]: the analysis call,
    [analyzeResponse.text.trim()], the generation call and the data URI of
    the first image. *)
Definition generateCustomIcon_try (base64Image mimeType : string) : M string :=
  text <- await (Env.analyze env mimeType base64Image) ;;
  match text with
  | None => throw (TypeError "Cannot read properties of undefined (reading 'trim')")
  | Some t =>
      let subject := trim t in
      generatedImages <- await (Env.imagen env (iconPrompt subject)) ;;
      firstImageUrl generatedImages
  end.

(** [GeminiService.generateCustomIcon]. *)
Definition generateCustomIcon (base64Image mimeType : string) : M string :=
  tryCatch
    (generateCustomIcon_try base64Image mimeType)
    (fun e => ret ("data:" +++ mimeType +++ ";base64," +++ base64Image)).

(** [AppComponent.generateId]. *)
Definition generateId : M string :=
  n <- gets idsDrawn ;;
  modify (set_idsDrawn (S n)) ;;
  ret (Env.newId env n).

(** [Math.random()] drawn for a rotation. *)
Definition mathRandom : M number :=
  n <- gets randomsDrawn ;;
  modify (set_randomsDrawn (S n)) ;;
  ret (Env.random env n).

(** [AppComponent.persistTrips]: [localStorage.setItem] throws when the
    quota is exceeded and then stores nothing. *)
Definition persistTrips (trips : list SavedTrip.t) : M unit :=
  if Env.storageFits env trips
  then modify (set_localStorage (Some trips))
  else throw (JsError.mk None (Some 22%Z) "QuotaExceededError").

(** The callback of [coords.map((c, i) => ...)] in [createVisualStamps]. *)
Definition newStamp (c : ValidCoordinate.t) (i : nat) : M Stamp.t :=
  id <- generateId ;;
  r <- mathRandom ;;
  ret (Stamp.mk ("stamp-" +++ id) (ValidCoordinate.name c) (rotationOf r)
         (nth (i mod length colors) colors EmptyString)
         (Env.today env) "12:00" None (Some "Classic ink stamp") false).

Fixpoint mapStamps (coords : list ValidCoordinate.t) (i : nat) : M (list Stamp.t) :=
  match coords with
  | [] => ret []
  | c :: rest =>
      s <- newStamp c i ;;
      ss <- mapStamps rest (S i) ;;
      ret (s :: ss)
  end.

(** [AppComponent.createVisualStamps]. *)
Definition createVisualStamps (coords : list ValidCoordinate.t) : M unit :=
  newStamps <- mapStamps coords 0 ;;
  modify (set_stamps newStamps).

(** [AppComponent.onGenerateRoute]. *)
Definition onGenerateRoute : M unit :=
  input <- gets locationInput ;;
  let rawInput := trim input in
  if negb (nonEmpty rawInput) then ret tt
  else
    modify (set_isLoading true) ;;
    modify (set_statusMessage "Tracing your route on the globe...") ;;
    modify (set_routeCoordinates []) ;;
    modify (set_missingLocations []) ;;
    modify (set_stamps []) ;;
    modify (set_customIconUrl None) ;;
    tryFinally
      (tryCatch
         (let locations := parseLocations rawInput in
          rawCoords <- getCoordinatesForLocations locations ;;
          let '(validCoords, missing) :=
            filterValidVsMissing rawCoords 0 locations [] [] in
          modify (set_missingLocations missing) ;;
          match validCoords with
          | [] => modify (set_statusMessage "Could not find any of those locations.")
          | _ :: _ =>
              modify (set_routeCoordinates validCoords) ;;
              (if Nat.ltb 0 (length missing)
               then modify (set_statusMessage
                      ("Found " +++ showNat (length validCoords) +++ " places. "
                       +++ showNat (length missing) +++ " missing."))
               else modify (set_statusMessage "Route mapped!")) ;;
              createVisualStamps validCoords
          end)
         (fun error =>
            if isQuotaError error
            then modify (set_statusMessage "AI Quota Exceeded. Please try again later.")
            else modify (set_statusMessage
                   "Something went wrong. Please check your internet connection.")))
      (modify (set_isLoading false)).

(** [GeminiService.generateStampImage]: one call; a failure is logged and
    thrown again. *)
Definition stampPromptText (locationName styleDescription : string) : string :=
  "A stylized travel passport stamp or sticker for " +++ String (ascii_of_nat 34) locationName
  +++ String (ascii_of_nat 34) ". " +++ String (ascii_of_nat 10) "      Style details: "
  +++ styleDescription +++ "." +++ String (ascii_of_nat 10)
  "      The design should be circular or shield-shaped, isolated on a white background. "
  +++ String (ascii_of_nat 10) "      Vintage, ink-stamped, or badge aesthetic. High contrast.".

Definition generateStampImage (locationName styleDescription : string) : M string :=
  tryCatch
    (generatedImages <- await (Env.imagen env (stampPromptText locationName styleDescription)) ;;
     firstImageUrl generatedImages)
    (fun e => throw e).

(** [AppComponent.onUploadIcon]: the handler itself.  The [try] block
    creates the reader, installs [reader.onload] and starts the read; the
    callback runs later, outside the [try]. *)
Definition onUploadIcon (files : list File.t) : M unit :=
  match files with
  | [] => ret tt
  | file :: _ =>
      if N.ltb (5 * 1024 * 1024) (File.size file)
      then alert "File is too large. Please upload an image under 5MB."
      else
        modify (set_isGeneratingIcon true) ;;
        modify (set_statusMessage "Designing your custom icon...") ;;
        tryCatch
          (later (IconReaderOnload file))
          (fun e =>
             modify (set_statusMessage "Failed to process icon. Try another image.") ;;
             modify (set_isGeneratingIcon false))
  end.

(** The [reader.onload] callback of [onUploadIcon], given [reader.result]. *)
Definition onUploadIcon_onload (base64Full : string) : M unit :=
  match matchDataUrl base64Full with
  | None => throw (Error "Invalid image format")
  | Some (mimeType, base64Data) =>
      newIconUrl <- generateCustomIcon base64Data mimeType ;;
      modify (set_customIconUrl (Some newIconUrl)) ;;
      modify (set_statusMessage "Custom icon applied!") ;;
      modify (set_isGeneratingIcon false)
  end.

(** [AppComponent.generateAiStamp]. *)
Definition generateAiStamp : M unit :=
  current <- gets editingStamp ;;
  prompt <- gets stampPrompt ;;
  match current with
  | None => ret tt
  | Some current =>
      if negb (nonEmpty prompt) then ret tt
      else
        modify (set_isGeneratingStamp true) ;;
        tryFinally
          (tryCatch
             (imageUrl <- generateStampImage (Stamp.name current) prompt ;;
              modify (set_editingStamp (Some
                (Stamp.mk (Stamp.id current) (Stamp.name current)
                   (Stamp.rotation current) (Stamp.color current)
                   (Stamp.date current) (Stamp.time current) (Some imageUrl)
                   (Some prompt) (Stamp.selected current)))))
             (fun e => alert "Failed to generate stamp. Quota may be exceeded."))
          (modify (set_isGeneratingStamp false))
  end.

(** The [for] loop of [downloadSelectedStamps]. *)
Fixpoint downloadEach (selected : list Stamp.t) : M unit :=
  match selected with
  | [] => ret tt
  | stamp :: rest =>
      match Env.captureStamp env (Stamp.id stamp) with
      | None => downloadEach rest
      | Some capture => _ <- await capture ;; downloadEach rest
      end
  end.

(** [AppComponent.downloadSelectedStamps]. *)
Definition downloadSelectedStamps : M unit :=
  all <- gets stamps ;;
  match filter Stamp.selected all with
  | [] => alert "Please select at least one stamp to download."
  | selected =>
      modify (set_isExporting true) ;;
      tryFinally
        (tryCatch (downloadEach selected)
           (fun e => alert "Failed to download some stamps."))
        (modify (set_isExporting false))
  end.

(** [AppComponent.exportMapImage] and its [setTimeout] callback with the
    [then] and [catch] of the promise. *)
Definition exportMapImage : M unit :=
  match Env.captureMap env with
  | None => ret tt
  | Some _ => modify (set_isExporting true) ;; later ExportTimeout
  end.

Definition exportMapImage_timeout : M unit :=
  match Env.captureMap env with
  | None => ret tt
  | Some (Reply (Reply image)) => modify (set_isExporting false)
  | Some (Reply (ReplyError err)) | Some (ReplyError err) =>
      modify (set_isExporting false) ;;
      alert "Could not generate image. Please try again."
  end.

(** The object literal [newTrip] of [saveTrip], for the trip name and
    the id already computed. *)
Definition newTripOf (tripName id : string) (w : World) : SavedTrip.t :=
  SavedTrip.mk id tripName (Env.now env) (locationInput w)
    (CoordArray (map copyCoordinate (routeCoordinates w)))
    (map copyStamp (stamps w))
    (Some (StyleConfig.mk (mapStyle w) (routeColor w) (routeWeight w)
             (orNull (customIconUrl w)) (Some (mapHeight w)))).

(** [AppComponent.saveTrip]. *)
Definition saveTrip : M unit :=
  currentCoords <- gets routeCoordinates ;;
  match currentCoords with
  | [] => ret tt
  | first :: _ =>
      let tripName := ValidCoordinate.name first +++ " Trip" in
      id <- generateId ;;
      w <- get ;;
      let newTrip := newTripOf tripName id w in
      let updatedTrips := newTrip :: savedTrips w in
      modify (set_savedTrips updatedTrips) ;;
      tryCatch
        (persistTrips updatedTrips ;;
         alert "Trip saved to library!")
        (fun e =>
           alert "Storage Full! This trip is saved for this session, but will disappear on refresh. Please download the Data Config to save it permanently.")
  end.

(** [AppComponent.loadTrip]: the part that runs at once. *)
Definition loadTrip (trip : SavedTrip.t) : M unit :=
  modify (set_routeCoordinates []) ;;
  modify (set_isGeneratingIcon false) ;;
  modify (set_isExporting false) ;;
  modify (set_statusMessage ("Loading " +++ SavedTrip.name trip +++ "...")) ;;
  modify (set_locationInput (SavedTrip.locations trip)) ;;
  match SavedTrip.styleConfig trip with
  | Some cfg =>
      modify (set_mapStyle (StyleConfig.style cfg)) ;;
      modify (set_routeColor (StyleConfig.color cfg)) ;;
      modify (set_routeWeight (StyleConfig.weight cfg)) ;;
      modify (set_customIconUrl (orNull (StyleConfig.customIconUrl cfg))) ;;
      modify (set_mapHeight
                match StyleConfig.mapHeight cfg with
                | Some h => h
                | None => small
                end)
  | None =>
      modify (set_mapStyle "standard") ;;
      modify (set_routeColor "#4f46e5") ;;
      modify (set_routeWeight 4%Q) ;;
      modify (set_customIconUrl None) ;;
      modify (set_mapHeight small)
  end ;;
  later (LoadTripTimeout trip).

(** The [setTimeout] callback of [loadTrip].  [trip.coordinates.map] is a
    [TypeError] when [coordinates] is not an array. *)
Definition loadTrip_timeout (trip : SavedTrip.t) : M unit :=
  match SavedTrip.coordinates trip with
  | CoordArray items =>
      modify (set_routeCoordinates (map copyCoordinate items)) ;;
      modify (set_stamps (map copyStamp (SavedTrip.stamps trip))) ;;
      modify (set_missingLocations []) ;;
      modify (set_statusMessage ("Loaded trip: " +++ SavedTrip.name trip))
  | CoordOther _ => throw (TypeError "trip.coordinates.map is not a function")
  end.

(** The test of [onImportTrip]:
    [!trip.coordinates || !Array.isArray(trip.stamps)]. *)
Definition invalidFormat (doc : JsValue) : Res bool :=
  match getProp doc "coordinates" with
  | Throw e => Throw e
  | Ok coordinates =>
      if negb (truthy coordinates) then Ok true
      else match getProp doc "stamps" with
           | Throw e => Throw e
           | Ok stamps => Ok (negb (isArray stamps))
           end
  end.

Definition withId (id : string) (trip : SavedTrip.t) : SavedTrip.t :=
  SavedTrip.mk id (SavedTrip.name trip) (SavedTrip.date trip)
    (SavedTrip.locations trip) (SavedTrip.coordinates trip)
    (SavedTrip.stamps trip) (SavedTrip.styleConfig trip).

(** [AppComponent.onImportTrip]: the handler installs [reader.onload] and
    starts reading. *)
Definition onImportTrip (files : list File.t) : M unit :=
  match files with
  | [] => ret tt
  | file :: _ => later (ImportReaderOnload file)
  end.

(** The [reader.onload] callback of [onImportTrip]. *)
Definition onImportTrip_onload (file : File.t) : M unit :=
  tryCatch
    (match File.json file with
     | None => throw (Error "SyntaxError: Unexpected token")
     | Some doc =>
         invalid <- liftRes (invalidFormat doc) ;;
         if invalid : bool
         then throw (Error "Invalid format: missing coordinates or stamps")
         else
           match asSavedTrip doc with
           | None => stuck
           | Some parsed =>
               known <- gets savedTrips ;;
               trip <- (if existsb (fun t => String.eqb (SavedTrip.id t) (SavedTrip.id parsed)) known
                        then id <- generateId ;; ret (withId id parsed)
                        else ret parsed) ;;
               loadTrip trip ;;
               tryCatch
                 (current <- gets savedTrips ;;
                  let updated := trip :: current in
                  persistTrips updated ;;
                  modify (set_savedTrips updated))
                 (fun err =>
                    alert "Trip loaded! (Storage full - not added to History list)")
           end
     end)
    (fun error => alert "Failed to import trip file. Invalid or Corrupt JSON.").

(** [AppComponent.requestDeleteTrip]. *)
Definition requestDeleteTrip (tripId : string) : M unit :=
  modify (set_tripToDelete (Some tripId)).

(** [AppComponent.confirmDeleteTrip]. *)
Definition confirmDeleteTrip : M unit :=
  pending <- gets tripToDelete ;;
  match pending with
  | None => ret tt
  | Some idToDelete =>
      if negb (nonEmpty idToDelete) then ret tt
      else
        currentTrips <- gets savedTrips ;;
        let updatedTrips :=
          filter (fun t => negb (String.eqb (SavedTrip.id t) idToDelete)) currentTrips in
        modify (set_savedTrips updatedTrips) ;;
        persistTrips updatedTrips ;;
        modify (set_tripToDelete None)
  end.

(** [AppComponent.cancelDeleteTrip]. *)
Definition cancelDeleteTrip : M unit :=
  modify (set_tripToDelete None).

(** Running a pending callback. *)
Definition runTask (task : Task) : M unit :=
  match task with
  | LoadTripTimeout trip => loadTrip_timeout trip
  | IconReaderOnload file =>
      match File.dataURL file with
      | Some base64Full => onUploadIcon_onload base64Full
      | None => ret tt
      end
  | ImportReaderOnload file => onImportTrip_onload file
  | ExportTimeout => exportMapImage_timeout
  end.

(** The event loop takes the oldest pending callback and runs it; an
    error it throws is reported on the console and changes nothing more. *)
Definition runNext (w : World) : World :=
  match timers w with
  | [] => w
  | task :: rest => exec (runTask task) (set_timers rest w)
  end.

End Handlers.

(** ** Worked runs *)

Module Sample.

(** The component as its constructor leaves it, with nothing stored. *)
Definition initial : World :=
  mkWorld "" false false false "standard" "#4f46e5" 4%Q None small
    [] [] [] "Ready to map your journey." [] None None false ""
    None [] [] 0 0.

Definition paris : LocationCoordinate.t :=
  LocationCoordinate.mk "Paris" (Some (48.8566)%Q) (Some (2.3522)%Q).
Definition atlantis : LocationCoordinate.t :=
  LocationCoordinate.mk "Atlantis" None None.
Definition rome : LocationCoordinate.t :=
  LocationCoordinate.mk "Rome" (Some (41.9028)%Q) (Some (12.4964)%Q).
(** A point on the equator. *)
Definition quito : LocationCoordinate.t :=
  LocationCoordinate.mk "Mitad del Mundo" (Some 0%Q) (Some (-78.4558)%Q).

Definition quotaError : JsError.t :=
  JsError.mk (Some "RESOURCE_EXHAUSTED") (Some 429%Z) "quota".

(** A stand-in for the length of the serialised list: one unit per trip
    and one per stamp, whose images make up the bulk of a stored trip. *)
Definition weight (trips : list SavedTrip.t) : nat :=
  fold_right (fun t n => 1 + length (SavedTrip.stamps t) + n) 0 trips.

(** An outside world whose resolver answers with the given body, whose
    image calls fail with a quota error, and whose storage takes lists of
    weight at most [capacity]. *)

Definition env (body : GeocodeBody) (capacity : nat) : Env.t :=
  Env.mk "11/2/2026" 1793577600000%Q
    (fun n => "id" +++ showNat n)
    (fun n => (inject_Z (Z.of_nat (7 * n + 3) mod 10) / 10)%Q)
    (fun _ => Reply body)
    (fun _ _ => ReplyError quotaError)
    (fun _ => ReplyError quotaError)
    (fun _ => None)
    None
    (fun trips => Nat.leb (weight trips) capacity).

(** The route of the specification's example, as generated. *)
Definition route : GeocodeBody :=
  BodyObject (Some [paris; atlantis; rome]).

Definition generated : World :=
  exec (onGenerateRoute (env route 5))
    (set_locationInput "Paris, Atlantis, Rome" initial).

(** A trip saved earlier, with no stamps, in memory and in storage. *)
Definition old : SavedTrip.t :=
  SavedTrip.mk "old" "Oslo Trip" 1700000000000%Q "Oslo"
    (CoordArray [ValidCoordinate.mk "Oslo" (59.9139)%Q (10.7522)%Q]) [] None.

Definition withLibrary (w : World) : World :=
  set_localStorage (Some [old]) (set_savedTrips [old] w).

(** An empty file, as [readAsDataURL] gives it. *)
Definition emptyFile : File.t :=
  File.mk 0 (Some "data:application/octet-stream;base64,") None.

(** A document with no [stamps], and one whose [coordinates] is a string. *)
Definition noStamps : JsValue :=
  JObj [ ("id", JStr "t1"); ("name", JStr "Paris Trip"); ("date", JNum 0%Q);
         ("locations", JStr "Paris"); ("coordinates", JArr []) ].

Definition textCoordinates : JsValue :=
  JObj [ ("id", JStr "t1"); ("name", JStr "Paris Trip"); ("date", JNum 0%Q);
         ("locations", JStr "Paris"); ("coordinates", JStr "48.85,2.35");
         ("stamps", JArr []) ].

Definition importFile (doc : JsValue) : File.t :=
  File.mk 120 None (Some doc).

End Sample.

(** The entries classified one by one, in order. *)
Fixpoint classifyAll (rawCoords : list LocationCoordinate.t) (index : nat)
    (locations : list string) : list (ValidCoordinate.t + MissingName) :=
  match rawCoords with
  | [] => []
  | item :: rest => classify item index locations :: classifyAll rest (S index) locations
  end.

Fixpoint lefts {A B} (l : list (A + B)) : list A :=
  match l with
  | [] => []
  | inl a :: rest => a :: lefts rest
  | inr _ :: rest => lefts rest
  end.

Fixpoint rights {A B} (l : list (A + B)) : list B :=
  match l with
  | [] => []
  | inl _ :: rest => rights rest
  | inr b :: rest => b :: rights rest
  end.

(** The stamps [createVisualStamps] makes, written out: the [i]-th
    coordinate gets the id and the random number drawn at its turn. *)
Fixpoint stampList (env : Env.t) (coords : list ValidCoordinate.t)
    (i nId nRandom : nat) : list Stamp.t :=
  match coords with
  | [] => []
  | c :: rest =>
      Stamp.mk ("stamp-" +++ Env.newId env nId) (ValidCoordinate.name c)
        (rotationOf (Env.random env nRandom))
        (nth (i mod length colors) colors EmptyString)
        (Env.today env) "12:00" None (Some "Classic ink stamp") false
      :: stampList env rest (S i) (S nId) (S nRandom)
  end.

(** [json.waypoints || []]. *)
Definition waypointsOr (o : option (list LocationCoordinate.t)) : list LocationCoordinate.t :=
  match o with
  | Some waypoints => waypoints
  | None => []
  end.

(** ** The stamp editor and the selection *)

(** The computed signal [allStampsSelected]. *)
Definition allStampsSelected (w : World) : bool :=
  Nat.ltb 0 (length (stamps w)) && forallb Stamp.selected (stamps w).

(** [{ ...s, selected: v }] and [{ ...s, imageUrl: v }]. *)
Definition withSelected (v : bool) (s : Stamp.t) : Stamp.t :=
  Stamp.mk (Stamp.id s) (Stamp.name s) (Stamp.rotation s) (Stamp.color s)
    (Stamp.date s) (Stamp.time s) (Stamp.imageUrl s) (Stamp.description s) v.

Definition withImageUrl (v : option string) (s : Stamp.t) : Stamp.t :=
  Stamp.mk (Stamp.id s) (Stamp.name s) (Stamp.rotation s) (Stamp.color s)
    (Stamp.date s) (Stamp.time s) v (Stamp.description s) (Stamp.selected s).

(** [AppComponent.openStampEditor]: the editor works on a copy, and the
    prompt is [stamp.description || 'Classic ink stamp']. *)
Definition openStampEditor (stamp : Stamp.t) : M unit :=
  modify (set_editingStamp (Some (copyStamp stamp))) ;;
  modify (set_stampPrompt
            (if truthyOpt (Stamp.description stamp)
             then match Stamp.description stamp with
                  | Some d => d
                  | None => "Classic ink stamp"
                  end
             else "Classic ink stamp")).

(** [AppComponent.closeStampEditor]. *)
Definition closeStampEditor : M unit :=
  modify (set_editingStamp None) ;;
  modify (set_isGeneratingStamp false).

(** The [reader.onload] callback of [onUploadStampImage], given
    [e.target.result]. *)
Definition onUploadStampImage_onload (result : string) : M unit :=
  current <- gets editingStamp ;;
  match current with
  | Some current => modify (set_editingStamp (Some (withImageUrl (Some result) current)))
  | None => ret tt
  end.

(** [AppComponent.saveStampChanges]. *)
Definition saveStampChanges : M unit :=
  edited <- gets editingStamp ;;
  match edited with
  | None => ret tt
  | Some edited =>
      list <- gets stamps ;;
      modify (set_stamps
                (map (fun s => if String.eqb (Stamp.id s) (Stamp.id edited)
                               then edited else s) list)) ;;
      closeStampEditor
  end.

(** [AppComponent.revertStampStyle]. *)
Definition revertStampStyle : M unit :=
  current <- gets editingStamp ;;
  match current with
  | Some current => modify (set_editingStamp (Some (withImageUrl None current)))
  | None => ret tt
  end.

(** [AppComponent.toggleStampSelection]. *)
Definition toggleStampSelection (id : string) : M unit :=
  list <- gets stamps ;;
  modify (set_stamps
            (map (fun s => if String.eqb (Stamp.id s) id
                           then withSelected (negb (Stamp.selected s)) s
                           else s) list)).

(** [AppComponent.toggleAllStamps]. *)
Definition toggleAllStamps : M unit :=
  allSelected <- gets allStampsSelected ;;
  list <- gets stamps ;;
  modify (set_stamps (map (withSelected (negb allSelected)) list)).

(** [s.replace(/\s+/g, '_')]: every run of white space becomes one
    underscore.  [inRun] tells that the character before was white space. *)
Fixpoint replaceRuns (inRun : bool) (s : string) : string :=
  match s with
  | EmptyString => EmptyString
  | String c rest =>
      if isWhiteSpace c
      then if inRun then replaceRuns true rest
           else String "_" (replaceRuns true rest)
      else String c (replaceRuns false rest)
  end.

Definition replaceSpaces (s : string) : string := replaceRuns false s.

(** The [link.download] of [downloadSelectedStamps]. *)
Definition stampFileName (stamp : Stamp.t) : string :=
  "Travel_Stamp_" +++ replaceSpaces (Stamp.name stamp) +++ ".png".

(** ** The exported document *)

(** A property that [JSON.stringify] writes only when it is defined. *)
Definition optProp (k : string) (o : option JsValue) : list (string * JsValue) :=
  match o with
  | Some v => [(k, v)]
  | None => []
  end.

Definition coordinateJson (c : ValidCoordinate.t) : JsValue :=
  JObj [ ("name", JStr (ValidCoordinate.name c));
         ("lat", JNum (ValidCoordinate.lat c));
         ("lng", JNum (ValidCoordinate.lng c)) ].

Definition stampJson (s : Stamp.t) : JsValue :=
  JObj ([ ("id", JStr (Stamp.id s)); ("name", JStr (Stamp.name s));
          ("rotation", JNum (Stamp.rotation s)); ("color", JStr (Stamp.color s));
          ("date", JStr (Stamp.date s)); ("time", JStr (Stamp.time s)) ]
        ++ optProp "imageUrl" (option_map JStr (Stamp.imageUrl s))
        ++ optProp "description" (option_map JStr (Stamp.description s))
        ++ [ ("selected", JBool (Stamp.selected s)) ]).

Definition mapHeightJson (h : MapHeight) : JsValue :=
  match h with
  | small => JStr "small"
  | medium => JStr "medium"
  | large => JStr "large"
  end.

Definition styleConfigJson (cfg : StyleConfig.t) : JsValue :=
  JObj ([ ("style", JStr (StyleConfig.style cfg));
          ("color", JStr (StyleConfig.color cfg));
          ("weight", JNum (StyleConfig.weight cfg)) ]
        ++ optProp "customIconUrl" (option_map JStr (StyleConfig.customIconUrl cfg))
        ++ optProp "mapHeight" (option_map mapHeightJson (StyleConfig.mapHeight cfg))).

Definition coordinatesJson (c : Coordinates) : JsValue :=
  match c with
  | CoordArray items => JArr (map coordinateJson items)
  | CoordOther (NaBool b) => JBool b
  | CoordOther (NaNum x) => JNum x
  | CoordOther (NaStr s) => JStr s
  | CoordOther (NaObj props) => JObj props
  end.

(** What [downloadTripData] writes, [JSON.stringify(trip)], as
    [JSON.parse] reads it back: the fields of the trip, the undefined
    ones left out. *)
Definition tripJson (trip : SavedTrip.t) : JsValue :=
  JObj ([ ("id", JStr (SavedTrip.id trip)); ("name", JStr (SavedTrip.name trip));
          ("date", JNum (SavedTrip.date trip));
          ("locations", JStr (SavedTrip.locations trip));
          ("coordinates", coordinatesJson (SavedTrip.coordinates trip));
          ("stamps", JArr (map stampJson (SavedTrip.stamps trip))) ]
        ++ optProp "styleConfig" (option_map styleConfigJson (SavedTrip.styleConfig trip))).

(** ** Start-up *)

(** What [localStorage.getItem] and [JSON.parse] give [loadSavedTrips]:
    nothing (no item, or the empty string), something that is not an
    array of objects (the parse or the [map] throws), or an array of
    trips, each with its [id] as found and its other fields at their
    declared types. *)
Inductive StoredItem : Type :=
| NoItem
| Corrupt
| StoredTrips (trips : list (JsValue * SavedTrip.t)).

(** The stored item of a world whose store was written by
    [persistTrips]: every id is the string that was written. *)
Definition storedItem (w : World) : StoredItem :=
  match localStorage w with
  | None => NoItem
  | Some trips => StoredTrips (map (fun t => (JStr (SavedTrip.id t), t)) trips)
  end.

Section Startup.

Variable env : Env.t.

(** [String(x)] for a number. *)
Variable showNumber : number -> string.

(** The callback of [trips.map] in [loadSavedTrips]: the trip with its
    id put right, and whether it was changed.  An id that is neither
    falsy, nor a number, nor a string stays as it is, which the type of
    [SavedTrip] cannot hold. *)
Definition sanitizeTrip (entry : JsValue * SavedTrip.t) : M (SavedTrip.t * bool) :=
  let '(id, t) := entry in
  if negb (truthy id)
  then fresh <- generateId env ;; ret (withId fresh t, true)
  else match id with
       | JNum x => ret (withId (showNumber x) t, true)
       | JStr s => ret (withId s t, false)
       | _ => stuck
       end.

Fixpoint sanitizeTrips (entries : list (JsValue * SavedTrip.t))
    : M (list SavedTrip.t * bool) :=
  match entries with
  | [] => ret ([], false)
  | entry :: rest =>
      r <- sanitizeTrip entry ;;
      rs <- sanitizeTrips rest ;;
      ret (fst r :: fst rs, snd r || snd rs)
  end.

(** [AppComponent.loadSavedTrips], for a given stored item. *)
Definition loadSavedTripsFrom (stored : StoredItem) : M unit :=
  match stored with
  | NoItem => ret tt
  | Corrupt => ret tt
  | StoredTrips entries =>
      tryCatch
        (r <- sanitizeTrips entries ;;
         let '(trips, hasUpdates) := r in
         modify (set_savedTrips trips) ;;
         if hasUpdates : bool then persistTrips env trips else ret tt)
        (fun e => ret tt)
  end.

(** [AppComponent.loadSavedTrips] on the store of the world. *)
Definition loadSavedTrips : M unit :=
  stored <- gets storedItem ;;
  loadSavedTripsFrom stored.

End Startup.

(** The code units of a string. *)
Definition chars : string -> list ascii := list_ascii_of_string.

(** A name as [parseLocations] yields it: not empty, nothing to trim, no
    comma. *)
Definition cleanName (x : string) : Prop :=
  nonEmpty x = true /\ trim x = x /\ ~ In ","%char (chars x).

(** ** More worked inputs *)

Module Demo.

(** An id supply that never repeats: the [n]-th id is [n] strokes. *)
Fixpoint strokes (n : nat) : string :=
  match n with
  | 0 => EmptyString
  | S n' => String "i" (strokes n')
  end.

(** An outside world with that id supply, a resolver that answers with
    the given body, image calls that answer with the given replies, and a
    storage that takes lists of weight at most [capacity]. *)
Definition env (body : GeocodeBody)
    (analysis : ContentReply (option string))
    (images : ContentReply (option (list GeneratedImage.t)))
    (capacity : nat) : Env.t :=
  Env.mk "11/2/2026" 1793577600000%Q
    (fun n => "t" +++ strokes n)
    (fun n => (inject_Z (Z.of_nat (7 * n + 3) mod 10) / 10)%Q)
    (fun _ => Reply body)
    (fun _ _ => analysis)
    (fun _ => images)
    (fun _ => None)
    None
    (fun trips => Nat.leb (Sample.weight trips) capacity).

Definition failing : Env.t :=
  env Sample.route (ReplyError Sample.quotaError) (ReplyError Sample.quotaError) 5.

(** An image service that draws one picture. *)
Definition drawing : Env.t :=
  env Sample.route (Reply (Some "Eiffel Tower"))
    (Reply (Some [GeneratedImage.mk (Some (Image.mk (Some "R0lGODlh")))])) 5.

(** The default of [nth] where a stamp of a list is picked. *)
Definition noStamp : Stamp.t := Stamp.mk "" "" 0%Q "" "" "" None None false.

End Demo.

(** Whether [loadSavedTrips] changes a stored id: it does unless the id
    is a non-empty string. *)
Definition needsRepair (id : JsValue) : bool :=
  match id with
  | JStr s => negb (nonEmpty s)
  | _ => true
  end.

(** The ids [loadSavedTrips] leaves as strings: the falsy ones, the
    numbers and the strings. *)
Definition repairable (id : JsValue) : Prop :=
  truthy id = false \/ (exists x, id = JNum x) \/ (exists s, id = JStr s).

(** A trip with its id blanked, to compare the other fields. *)
Definition sameButId (a b : SavedTrip.t) : Prop :=
  withId EmptyString a = withId EmptyString b.

(** How one stored trip comes out of [loadSavedTrips]: nothing but the
    id changes; a non-empty string stays, a number is printed, and a
    falsy id is replaced by a generated one. *)
Definition repaired (env : Env.t) (showNumber : number -> string)
    (entry : JsValue * SavedTrip.t) (t : SavedTrip.t) : Prop :=
  sameButId t (snd entry)
  /\ (forall s, fst entry = JStr s -> nonEmpty s = true -> SavedTrip.id t = s)
  /\ (forall x, fst entry = JNum x -> notZero x = true -> SavedTrip.id t = showNumber x)
  /\ (truthy (fst entry) = false -> exists n, SavedTrip.id t = Env.newId env n).

(** A store as it was before trips had string ids. *)
Definition legacyStore : list (JsValue * SavedTrip.t) :=
  [ (JUndefined, Sample.old); (JNum 1700000000000%Q, Sample.old);
    (JStr "kept", Sample.old) ].

(** * Properties *)

(** The example of the specification: "Paris, Atlantis, Rome" with
    Atlantis unresolved. *)
Example run_paris_atlantis_rome :
  let w := exec (onGenerateRoute
                   (Sample.env (BodyObject (Some [Sample.paris; Sample.atlantis; Sample.rome])) 5))
                (set_locationInput "Paris, Atlantis , Rome" Sample.initial) in
  map ValidCoordinate.name (routeCoordinates w) = ["Paris"; "Rome"]
  /\ missingLocations w = [Some "Atlantis"]
  /\ map Stamp.name (stamps w) = ["Paris"; "Rome"]
  /\ map Stamp.id (stamps w) = ["stamp-id0"; "stamp-id1"]
  /\ statusMessage w = "Found 2 places. 1 missing."
  /\ isLoading w = false.
Proof. vm_compute. repeat split; reflexivity. Qed.

Example parse_example :
  parseLocations (trim "  Paris, Atlantis ,, Rome ,") = ["Paris"; "Atlantis"; "Rome"].
Proof. reflexivity. Qed.

Example match_png :
  matchDataUrl "data:image/png;base64,iVBORw0KGgo=" = Some ("image/png", "iVBORw0KGgo=").
Proof. reflexivity. Qed.

Example match_empty_file :
  matchDataUrl "data:application/octet-stream;base64," = None.
Proof. reflexivity. Qed.

(** ** The partition of the resolver's entries *)

Lemma notZero_true_iff (x : number) : notZero x = true <-> ~ (x == 0)%Q.
Proof.
  unfold notZero. rewrite negb_true_iff, <- not_true_iff_false, Qeq_bool_iff.
  reflexivity.
Qed.

Lemma lefts_rights_length {A B} (l : list (A + B)) :
  length (lefts l) + length (rights l) = length l.
Proof.
  induction l as [|[a|b] l IH]; simpl; lia.
Qed.

Lemma classifyAll_length rawCoords index locations :
  length (classifyAll rawCoords index locations) = length rawCoords.
Proof.
  revert index. induction rawCoords as [|item rest IH]; intros index; simpl.
  - reflexivity.
  - now rewrite IH.
Qed.

Lemma classifyAll_nth rawCoords index locations i item :
  nth_error rawCoords i = Some item ->
  nth_error (classifyAll rawCoords index locations) i
  = Some (classify item (index + i) locations).
Proof.
  revert index i. induction rawCoords as [|x rest IH]; intros index i H.
  - destruct i; discriminate.
  - destruct i as [|i]; simpl in *.
    + inversion H; subst. now rewrite Nat.add_0_r.
    + rewrite (IH (S index) i H). now rewrite Nat.add_succ_r.
Qed.

(** The loop pushes the valid entries and the missing names in the order
    of the response. *)
Lemma filterValidVsMissing_spec rawCoords index locations validCoords missing :
  filterValidVsMissing rawCoords index locations validCoords missing
  = (validCoords ++ lefts (classifyAll rawCoords index locations),
     missing ++ rights (classifyAll rawCoords index locations)).
Proof.
  revert index validCoords missing.
  induction rawCoords as [|item rest IH]; intros index validCoords missing; simpl.
  - now rewrite !app_nil_r.
  - destruct (classify item index locations) as [c|m]; rewrite IH; simpl.
    + now rewrite <- app_assoc.
    + now rewrite <- app_assoc.
Qed.

(** C1 (as amended): an entry of the response is pushed onto the valid
    coordinates exactly when its [lat] and [lng] are both non-null and
    both different from zero, and then with its own name, [lat] and
    [lng]; an entry in which either of them is zero, so the entry (0,0)
    too, goes to the missing list. *)
Theorem C1_valid_iff_both_present_and_nonzero
    (item : LocationCoordinate.t) (index : nat) (locations : list string) :
  (forall c, classify item index locations = inl c <->
     exists la ln,
       LocationCoordinate.lat item = Some la /\ LocationCoordinate.lng item = Some ln
       /\ ~ (la == 0)%Q /\ ~ (ln == 0)%Q
       /\ c = ValidCoordinate.mk (LocationCoordinate.name item) la ln)
  /\ (forall la ln,
        LocationCoordinate.lat item = Some la -> LocationCoordinate.lng item = Some ln ->
        ((la == 0)%Q \/ (ln == 0)%Q) ->
        classify item index locations = inr (missingName item index locations)).
Proof.
  unfold classify. split.
  - intros c. destruct (LocationCoordinate.lat item) as [la|], (LocationCoordinate.lng item) as [ln|].
    + destruct (notZero la) eqn:Ela, (notZero ln) eqn:Eln; simpl; split.
      all: try (intros H; discriminate H).
      * intros H. inversion H. exists la, ln.
        repeat split; try reflexivity; apply notZero_true_iff; assumption.
      * intros (a & b & Ha & Hb & _ & _ & ->). now inversion Ha; inversion Hb; subst.
      * intros (a & b & Ha & Hb & _ & Hnz & _). inversion Hb; subst.
        apply notZero_true_iff in Hnz. congruence.
      * intros (a & b & Ha & Hb & Hnz & _ & _). inversion Ha; subst.
        apply notZero_true_iff in Hnz. congruence.
      * intros (a & b & Ha & Hb & Hnz & _ & _). inversion Ha; subst.
        apply notZero_true_iff in Hnz. congruence.
    + split; [discriminate|]. intros (a & b & _ & Hb & _). discriminate.
    + split; [discriminate|]. intros (a & b & Ha & _). discriminate.
    + split; [discriminate|]. intros (a & b & Ha & _). discriminate.
  - intros la ln -> -> Hz.
    destruct (notZero la) eqn:Ela, (notZero ln) eqn:Eln; simpl; try reflexivity.
    apply notZero_true_iff in Ela, Eln. tauto.
Qed.

(** C1, the claim as stated fails: an entry on the equator has both
    fields non-null and is not the pair (0,0), yet it is classified as
    missing. *)
Lemma C1_equator_entry_is_missing :
  ~ ((exists c, classify Sample.quito 0 ["Mitad del Mundo"] = inl c) <->
     (exists la ln,
        LocationCoordinate.lat Sample.quito = Some la
        /\ LocationCoordinate.lng Sample.quito = Some ln
        /\ ~ ((la == 0)%Q /\ (ln == 0)%Q))).
Proof.
  intros [_ H].
  destruct H as [c Hc].
  - exists 0%Q, (-78.4558)%Q. repeat split. intros [_ H]. discriminate H.
  - discriminate Hc.
Qed.

(** A run of C1's theorem on the entry (0,0). *)
Lemma C1_witness :
  classify (LocationCoordinate.mk "Null Island" (Some 0%Q) (Some 0%Q)) 0 ["Null Island"]
  = inr (Some "Null Island").
Proof.
  apply (proj2 (C1_valid_iff_both_present_and_nonzero
                  (LocationCoordinate.mk "Null Island" (Some 0%Q) (Some 0%Q)) 0
                  ["Null Island"]) 0%Q 0%Q eq_refl eq_refl).
  left. reflexivity.
Defined.

(** ** Route generation *)

Lemma mapStamps_run env coords i w :
  mapStamps env coords i w
  = (Returned (stampList env coords i (idsDrawn w) (randomsDrawn w)),
     set_randomsDrawn (randomsDrawn w + length coords)
       (set_idsDrawn (idsDrawn w + length coords) w)).
Proof.
  revert i w. induction coords as [|c rest IH]; intros i w.
  - destruct w; simpl. unfold ret, set_randomsDrawn, set_idsDrawn; simpl.
    now rewrite !Nat.add_0_r.
  - cbn [mapStamps stampList length].
    unfold bind at 1. unfold newStamp, generateId, mathRandom, bind, gets, modify, ret.
    cbn [fst snd]. rewrite IH. destruct w; cbn.
    unfold set_randomsDrawn, set_idsDrawn; cbn.
    now rewrite !Nat.add_succ_r.
Qed.

Lemma getCoordinatesForLocations_object env locations o w :
  Env.geocode env locations = Reply (BodyObject o) ->
  getCoordinatesForLocations env locations w = (Returned (waypointsOr o), w).
Proof.
  intros H. unfold getCoordinatesForLocations, tryCatch, bind, await. rewrite H.
  destruct o; reflexivity.
Qed.

Lemma onGenerateRoute_resolved env w o :
  nonEmpty (trim (locationInput w)) = true ->
  Env.geocode env (parseLocations (trim (locationInput w))) = Reply (BodyObject o) ->
  let tags := classifyAll (waypointsOr o) 0 (parseLocations (trim (locationInput w))) in
  let w' := exec (onGenerateRoute env) w in
  routeCoordinates w' = lefts tags
  /\ missingLocations w' = rights tags
  /\ stamps w' = stampList env (lefts tags) 0 (idsDrawn w) (randomsDrawn w)
  /\ isLoading w' = false.
Proof.
  intros Hin Hgeo tags w'. subst w'.
  unfold onGenerateRoute. run_handler. rewrite Hin. cbv beta iota delta [negb].
  rewrite (getCoordinatesForLocations_object _ _ _ _ Hgeo).
  rewrite filterValidVsMissing_spec. cbn [app]. fold tags.
  destruct (lefts tags) as [|c valid] eqn:Evalid.
  - destruct w; cbn. auto.
  - unfold createVisualStamps. run_handler.
    destruct (0 <? length (rights tags))%nat; rewrite mapStamps_run; destruct w; cbn; auto.
Qed.

Lemma stampList_length env coords i a b :
  length (stampList env coords i a b) = length coords.
Proof.
  revert i a b. induction coords as [|c rest IH]; intros i a b; simpl.
  - reflexivity.
  - now rewrite IH.
Qed.

Lemma stampList_nth env coords i0 a b i c :
  nth_error coords i = Some c ->
  nth_error (stampList env coords i0 a b) i
  = Some (Stamp.mk ("stamp-" +++ Env.newId env (a + i)) (ValidCoordinate.name c)
            (rotationOf (Env.random env (b + i)))
            (nth ((i0 + i) mod length colors) colors EmptyString)
            (Env.today env) "12:00" None (Some "Classic ink stamp") false).
Proof.
  revert i0 a b i. induction coords as [|x rest IH]; intros i0 a b i H.
  - destruct i; discriminate.
  - destruct i as [|i]; cbn [stampList nth_error] in *.
    + inversion H; subst. now rewrite !Nat.add_0_r.
    + rewrite (IH (S i0) (S a) (S b) i H). now rewrite !Nat.add_succ_r.
Qed.

(** The rotation of a draw in [0,1) is a whole number from -15 to 14. *)
Lemma rotationOf_range (r : number) :
  (0 <= r)%Q -> (r < 1)%Q ->
  exists z : Z, rotationOf r = inject_Z z /\ (-15 <= z <= 14)%Z.
Proof.
  intros Hlo Hhi. exists (Qfloor (r * 30)%Q - 15)%Z. split; [reflexivity|].
  assert (H0 : (0 <= Qfloor (r * 30)%Q)%Z).
  { change 0%Z with (Qfloor (inject_Z 0)). apply Qfloor_resp_le.
    change (inject_Z 0) with (0 * 30)%Q. apply Qmult_le_compat_r; [assumption|discriminate]. }
  assert (H1 : (Qfloor (r * 30)%Q < 30)%Z).
  { rewrite Zlt_Qlt. apply Qle_lt_trans with (r * 30)%Q; [apply Qfloor_le|].
    change (inject_Z 30) with (1 * 30)%Q. apply Qmult_lt_compat_r; [reflexivity|assumption]. }
  lia.
Qed.

(** C2 (as amended): the valid coordinates and the missing names are the
    entries of the resolver's response, each classified on its own and
    kept in the order of the response, so their lengths add up to the
    length of the response; they add up to the number of input names when
    the response has as many entries as there were names. *)
Theorem C2_partition_follows_response env w o :
  nonEmpty (trim (locationInput w)) = true ->
  Env.geocode env (parseLocations (trim (locationInput w))) = Reply (BodyObject o) ->
  let locations := parseLocations (trim (locationInput w)) in
  let rawCoords := waypointsOr o in
  let w' := exec (onGenerateRoute env) w in
  exists tags : list (ValidCoordinate.t + MissingName),
    length tags = length rawCoords
    /\ (forall i item, nth_error rawCoords i = Some item ->
          nth_error tags i = Some (classify item i locations))
    /\ routeCoordinates w' = lefts tags
    /\ missingLocations w' = rights tags
    /\ length (routeCoordinates w') + length (missingLocations w') = length rawCoords
    /\ (length rawCoords = length locations ->
        length (routeCoordinates w') + length (missingLocations w') = length locations).
Proof.
  intros Hin Hgeo locations rawCoords w'.
  destruct (onGenerateRoute_resolved env w o Hin Hgeo) as (Hr & Hm & _ & _).
  fold locations rawCoords w' in Hr, Hm.
  exists (classifyAll rawCoords 0 locations).
  assert (Hlen : length (routeCoordinates w') + length (missingLocations w') = length rawCoords).
  { rewrite Hr, Hm, lefts_rights_length. apply classifyAll_length. }
  repeat split.
  - apply classifyAll_length.
  - intros i item H. apply (classifyAll_nth rawCoords 0 locations i item H).
  - exact Hr.
  - exact Hm.
  - exact Hlen.
  - intros <-. exact Hlen.
Qed.

(** C2, the claim as stated fails: the resolver answers with one entry
    for the two names "Paris, Rome"; the two lists together then hold one
    name, not two, and Rome is in neither. *)
Lemma C2_short_response_loses_a_name :
  let w := set_locationInput "Paris, Rome" Sample.initial in
  let w' := exec (onGenerateRoute (Sample.env (BodyObject (Some [Sample.paris])) 5)) w in
  parseLocations (trim (locationInput w)) = ["Paris"; "Rome"]
  /\ length (routeCoordinates w') + length (missingLocations w')
     <> length (parseLocations (trim (locationInput w)))
  /\ ~ In "Rome" (map ValidCoordinate.name (routeCoordinates w'))
  /\ ~ In (Some "Rome") (missingLocations w').
Proof.
  vm_compute. repeat split.
  - discriminate.
  - intros [H|[]]. discriminate H.
  - intros [].
Qed.

(** A run of C2's theorem on the example of the specification. *)
Lemma C2_witness :
  let w := set_locationInput "Paris, Atlantis, Rome" Sample.initial in
  let w' := exec (onGenerateRoute
                    (Sample.env (BodyObject (Some [Sample.paris; Sample.atlantis; Sample.rome])) 5)) w in
  length (routeCoordinates w') + length (missingLocations w') = 3.
Proof.
  intros w w'.
  destruct (C2_partition_follows_response
              (Sample.env (BodyObject (Some [Sample.paris; Sample.atlantis; Sample.rome])) 5)
              w (Some [Sample.paris; Sample.atlantis; Sample.rome]) eq_refl eq_refl)
    as (tags & _ & _ & _ & _ & H & _).
  exact H.
Defined.

(** C8: after a resolution with at least one valid coordinate there is
    one stamp per coordinate of the route, in the same order; the i-th
    stamp bears the i-th coordinate's name, the palette colour at index
    i modulo the palette size, and a whole number of degrees from -15 to
    15 as its rotation. *)
Theorem C8_one_default_stamp_per_coordinate env w o :
  nonEmpty (trim (locationInput w)) = true ->
  Env.geocode env (parseLocations (trim (locationInput w))) = Reply (BodyObject o) ->
  (forall n, (0 <= Env.random env n)%Q /\ (Env.random env n < 1)%Q) ->
  let w' := exec (onGenerateRoute env) w in
  routeCoordinates w' <> [] ->
  length (stamps w') = length (routeCoordinates w')
  /\ forall i c, nth_error (routeCoordinates w') i = Some c ->
       exists s, nth_error (stamps w') i = Some s
         /\ Stamp.name s = ValidCoordinate.name c
         /\ Stamp.color s = nth (i mod length colors) colors EmptyString
         /\ In (Stamp.color s) colors
         /\ exists z : Z, Stamp.rotation s = inject_Z z /\ (-15 <= z <= 15)%Z.
Proof.
  intros Hin Hgeo Hrand w' _.
  destruct (onGenerateRoute_resolved env w o Hin Hgeo) as (Hr & _ & Hs & _).
  fold w' in Hr, Hs. rewrite Hs, Hr. split.
  - apply stampList_length.
  - intros i c Hc. eexists. split; [apply (stampList_nth _ _ _ _ _ _ _ Hc)|].
    cbn [Stamp.name Stamp.color Stamp.rotation Nat.add]. repeat split.
    + apply nth_In. apply Nat.mod_upper_bound. discriminate.
    + destruct (Hrand (randomsDrawn w + i)) as [Hlo Hhi].
      destruct (rotationOf_range _ Hlo Hhi) as (z & Hz & Hb).
      exists z. split; [exact Hz | lia].
Qed.

(** A run of C8's theorem on the example of the specification. *)
Lemma C8_witness :
  let w' := exec (onGenerateRoute
                    (Sample.env (BodyObject (Some [Sample.paris; Sample.atlantis; Sample.rome])) 5))
                 (set_locationInput "Paris, Atlantis, Rome" Sample.initial) in
  length (stamps w') = length (routeCoordinates w').
Proof.
  intros w'.
  refine (proj1 (C8_one_default_stamp_per_coordinate
                   (Sample.env (BodyObject (Some [Sample.paris; Sample.atlantis; Sample.rome])) 5)
                   (set_locationInput "Paris, Atlantis, Rome" Sample.initial)
                   (Some [Sample.paris; Sample.atlantis; Sample.rome])
                   eq_refl eq_refl _ _)).
  - intros n. cbn [Sample.env Env.random]. split.
    + apply Qle_shift_div_l; [reflexivity|]. rewrite Qmult_0_l.
      change 0%Q with (inject_Z 0). rewrite <- Zle_Qle.
      apply Z.mod_pos_bound. reflexivity.
    + apply Qlt_shift_div_r; [reflexivity|]. rewrite Qmult_1_l.
      change 10%Q with (inject_Z 10). rewrite <- Zlt_Qlt.
      apply Z.mod_pos_bound. reflexivity.
  - vm_compute. discriminate.
Defined.

(** ** The trip library *)

Lemma copyCoordinate_id c : copyCoordinate c = c.
Proof. destruct c; reflexivity. Qed.

Lemma copyStamp_id s : copyStamp s = s.
Proof. destruct s; reflexivity. Qed.

Lemma map_copyCoordinate l : map copyCoordinate l = l.
Proof.
  induction l as [|c l IH]; simpl; [reflexivity|].
  now rewrite copyCoordinate_id, IH.
Qed.

Lemma map_copyStamp l : map copyStamp l = l.
Proof.
  induction l as [|s l IH]; simpl; [reflexivity|].
  now rewrite copyStamp_id, IH.
Qed.


(** What [saveTrip] does to a non-empty route: the new trip goes to the
    head of the list in memory, and then either the write succeeds or the
    warning is shown. *)
Lemma saveTrip_run env w first rest :
  routeCoordinates w = first :: rest ->
  let trip := newTripOf env (ValidCoordinate.name first +++ " Trip")
                (Env.newId env (idsDrawn w)) w in
  let w1 := set_savedTrips (trip :: savedTrips w) (set_idsDrawn (S (idsDrawn w)) w) in
  saveTrip env w
  = if Env.storageFits env (trip :: savedTrips w)
    then (Returned tt,
          set_alerts (alerts w ++ ["Trip saved to library!"])
            (set_localStorage (Some (trip :: savedTrips w)) w1))
    else (Returned tt,
          set_alerts (alerts w ++ ["Storage Full! This trip is saved for this session, but will disappear on refresh. Please download the Data Config to save it permanently."]) w1).
Proof.
  intros Hroute trip w1. unfold saveTrip, generateId, persistTrips. run_handler.
  rewrite Hroute.
  change (newTripOf env (ValidCoordinate.name first +++ " Trip")
            (Env.newId env (idsDrawn w)) (set_idsDrawn (S (idsDrawn w)) w))
    with trip.
  cbn [savedTrips set_idsDrawn].
  destruct (Env.storageFits env (trip :: savedTrips w)); reflexivity.
Qed.

(** C6: when [localStorage] refuses the list, [saveTrip] still returns
    with the new trip at the head of the list in memory, leaves the
    stored list as it was, and has shown the warning that the trip will
    not survive a refresh. *)
Theorem C6_failed_write_keeps_trip_in_memory env w first rest :
  routeCoordinates w = first :: rest ->
  let trip := newTripOf env (ValidCoordinate.name first +++ " Trip")
                (Env.newId env (idsDrawn w)) w in
  Env.storageFits env (trip :: savedTrips w) = false ->
  exists w',
    saveTrip env w = (Returned tt, w')
    /\ savedTrips w' = trip :: savedTrips w
    /\ localStorage w' = localStorage w
    /\ alerts w' = alerts w ++ ["Storage Full! This trip is saved for this session, but will disappear on refresh. Please download the Data Config to save it permanently."]
    /\ SavedTrip.coordinates trip = CoordArray (routeCoordinates w)
    /\ SavedTrip.stamps trip = stamps w.
Proof.
  intros Hroute trip Hfull.
  pose proof (saveTrip_run env w first rest Hroute) as Hrun.
  cbv zeta in Hrun. fold trip in Hrun. rewrite Hfull in Hrun.
  eexists. split; [exact Hrun|]. cbn. repeat split.
  - now rewrite map_copyCoordinate.
  - apply map_copyStamp.
Qed.

(** A run of C6's theorem: the generated route is saved into a storage
    that is already full. *)
Lemma C6_witness :
  exists w',
    saveTrip (Sample.env Sample.route 2) (Sample.withLibrary Sample.generated)
    = (Returned tt, w')
    /\ map SavedTrip.id (savedTrips w') = ["id2"; "old"]
    /\ localStorage w' = Some [Sample.old].
Proof.
  destruct (C6_failed_write_keeps_trip_in_memory (Sample.env Sample.route 2)
              (Sample.withLibrary Sample.generated)
              (ValidCoordinate.mk "Paris" (48.8566)%Q (2.3522)%Q)
              [ValidCoordinate.mk "Rome" (41.9028)%Q (12.4964)%Q]
              eq_refl eq_refl)
    as (w' & Hrun & Hsaved & Hstored & _).
  exists w'. split; [exact Hrun|]. split.
  - rewrite Hsaved. reflexivity.
  - rewrite Hstored. reflexivity.
Defined.




(** X30: the two phases of a deletion.  [requestDeleteTrip] records the
    id and changes nothing else; [confirmDeleteTrip] does nothing when no
    id is pending, be it null or the empty string; after a request with a
    non-empty id it keeps in memory exactly the trips with another id,
    whether or not the store can be written, and when [localStorage]
    takes that list it stores it and clears the pending id;
    [cancelDeleteTrip] clears the pending id and changes nothing else. *)
Theorem delete_flow_two_phases env w tripId :
  nonEmpty tripId = true ->
  let keep := filter (fun t => negb (String.eqb (SavedTrip.id t) tripId)) (savedTrips w) in
  let w1 := exec (requestDeleteTrip tripId) w in
  requestDeleteTrip tripId w = (Returned tt, set_tripToDelete (Some tripId) w)
  /\ (forall w0, tripToDelete w0 = None \/ tripToDelete w0 = Some EmptyString ->
        confirmDeleteTrip env w0 = (Returned tt, w0))
  /\ savedTrips (exec (confirmDeleteTrip env) w1) = keep
  /\ (forall t, In t keep <-> In t (savedTrips w) /\ SavedTrip.id t <> tripId)
  /\ (Env.storageFits env keep = true ->
      confirmDeleteTrip env w1
      = (Returned tt,
         set_tripToDelete None (set_localStorage (Some keep) (set_savedTrips keep w))))
  /\ cancelDeleteTrip w1 = (Returned tt, set_tripToDelete None w).
Proof.
  intros Hid keep w1.
  assert (Hconfirm : confirmDeleteTrip env w1
            = if Env.storageFits env keep
              then (Returned tt,
                    set_tripToDelete None (set_localStorage (Some keep) (set_savedTrips keep w)))
              else (Thrown (JsError.mk None (Some 22%Z) "QuotaExceededError"),
                    set_savedTrips keep w1)).
  { unfold w1, confirmDeleteTrip, requestDeleteTrip, persistTrips. run_handler.
    cbn [tripToDelete savedTrips set_tripToDelete]. rewrite Hid. cbn [negb].
    change (savedTrips (set_tripToDelete (Some tripId) w)) with (savedTrips w).
    fold keep. destruct (Env.storageFits env keep); reflexivity. }
  split; [reflexivity|]. split; [|split; [|split; [|split]]].
  - intros w0 [H0|H0]; unfold confirmDeleteTrip; run_handler; now rewrite H0.
  - unfold exec. rewrite Hconfirm. now destruct (Env.storageFits env keep).
  - intros t. unfold keep. rewrite filter_In, negb_true_iff, String.eqb_neq. reflexivity.
  - intros Hfits. now rewrite Hconfirm, Hfits.
  - reflexivity.
Qed.

Lemma delete_flow_two_phases_witness :
  confirmDeleteTrip (Sample.env Sample.route 5)
    (exec (requestDeleteTrip "old") (Sample.withLibrary Sample.initial))
  = (Returned tt,
     set_tripToDelete None
       (set_localStorage (Some []) (set_savedTrips [] (Sample.withLibrary Sample.initial)))).
Proof.
  exact (proj1 (proj2 (proj2 (proj2 (proj2
    (delete_flow_two_phases (Sample.env Sample.route 5)
       (Sample.withLibrary Sample.initial) "old" eq_refl)))))
    eq_refl).
Defined.

(** C7, the code where the write fails.  [confirmDeleteTrip] changes the
    list in memory and then calls [persistTrips] outside any [try]
    block, unlike [saveTrip], [onImportTrip] and [loadSavedTrips].  After
    a request with a non-empty id, when [localStorage.setItem] refuses
    the shorter list, the handler throws: the trips with that id are gone
    from memory, but the store is what it was, so a stored trip whose
    deletion was confirmed is still in durable storage, and the pending
    id is not cleared. *)
Theorem C7_failed_write_leaves_trip_stored env w tripId :
  nonEmpty tripId = true ->
  let keep := filter (fun t => negb (String.eqb (SavedTrip.id t) tripId)) (savedTrips w) in
  Env.storageFits env keep = false ->
  exists e w',
    confirmDeleteTrip env (exec (requestDeleteTrip tripId) w) = (Thrown e, w')
    /\ savedTrips w' = keep
    /\ localStorage w' = localStorage w
    /\ tripToDelete w' = Some tripId.
Proof.
  intros Hid keep Hfull. do 2 eexists. split.
  - unfold confirmDeleteTrip, requestDeleteTrip, persistTrips. run_handler.
    cbn [tripToDelete savedTrips set_tripToDelete]. rewrite Hid. cbn [negb].
    change (savedTrips (set_tripToDelete (Some tripId) w)) with (savedTrips w).
    fold keep. rewrite Hfull. reflexivity.
  - repeat split.
Qed.

(** A run of C7's theorem: the generated route was saved while the store
    was full, so it is in memory only; the older, stored trip is then
    deleted, and is still in the store afterwards. *)
Lemma C7_failed_write_witness :
  let env := Sample.env Sample.route 2 in
  let w := exec (saveTrip env) (Sample.withLibrary Sample.generated) in
  exists e w',
    confirmDeleteTrip env (exec (requestDeleteTrip "old") w) = (Thrown e, w')
    /\ map SavedTrip.id (savedTrips w) = ["id2"; "old"]
    /\ map SavedTrip.id (savedTrips w') = ["id2"]
    /\ localStorage w' = Some [Sample.old]
    /\ tripToDelete w' = Some "old".
Proof.
  intros env w.
  destruct (C7_failed_write_leaves_trip_stored env w "old" eq_refl eq_refl)
    as (e & w' & Hrun & Hsaved & Hstored & Hpending).
  exists e, w'. split; [exact Hrun|]. split; [reflexivity|].
  split; [rewrite Hsaved; reflexivity|]. split; [rewrite Hstored; reflexivity|].
  exact Hpending.
Defined.

(** ** Import *)

(** On an object the test looks at the truthiness of [coordinates] and at
    whether [stamps] is an array, and at nothing else. *)
Lemma invalidFormat_object props :
  invalidFormat (JObj props)
  = Ok (negb (truthy (lookupProp "coordinates" props))
        || negb (isArray (lookupProp "stamps" props))).
Proof.
  unfold invalidFormat, getProp.
  destruct (truthy (lookupProp "coordinates" props)); reflexivity.
Qed.

Lemma invalidFormat_without_stamps props :
  lookupProp "stamps" props = JUndefined -> invalidFormat (JObj props) = Ok true.
Proof.
  intros H. rewrite invalidFormat_object, H. cbn. apply f_equal, orb_true_r.
Qed.

(** Any truthy [coordinates] passes, array or not. *)
Lemma invalidFormat_truthy_coordinates props :
  truthy (lookupProp "coordinates" props) = true ->
  isArray (lookupProp "stamps" props) = true ->
  invalidFormat (JObj props) = Ok false.
Proof.
  intros Hc Hs. now rewrite invalidFormat_object, Hc, Hs.
Qed.

(** X29: when the test of [onImportTrip] itself refuses the document
    (it finds no truthy [coordinates], or [stamps] is not an array, or
    reading the document throws), the import ends with the alert that
    the file could not be imported, and the list of saved trips, the
    stored list, the route, the stamps, the missing list, the style and
    the pending callbacks are as before. *)
Theorem rejected_import_changes_nothing env w file doc :
  File.json file = Some doc ->
  invalidFormat doc <> Ok false ->
  exists w',
    onImportTrip_onload env file w = (Returned tt, w')
    /\ w' = set_alerts (alerts w ++ ["Failed to import trip file. Invalid or Corrupt JSON."]) w
    /\ savedTrips w' = savedTrips w
    /\ localStorage w' = localStorage w
    /\ routeCoordinates w' = routeCoordinates w
    /\ stamps w' = stamps w
    /\ missingLocations w' = missingLocations w
    /\ locationInput w' = locationInput w
    /\ (mapStyle w', routeColor w', routeWeight w', customIconUrl w', mapHeight w')
       = (mapStyle w, routeColor w, routeWeight w, customIconUrl w, mapHeight w)
    /\ timers w' = timers w.
Proof.
  intros Hjson Hbad. eexists. split.
  - unfold onImportTrip_onload. run_handler. rewrite Hjson.
    destruct (invalidFormat doc) as [[|]|e]; try reflexivity.
    now elim Hbad.
  - repeat split.
Qed.

Lemma rejected_import_changes_nothing_witness :
  exists w',
    onImportTrip_onload (Sample.env Sample.route 5)
      (Sample.importFile Sample.noStamps) (Sample.withLibrary Sample.generated)
    = (Returned tt, w')
    /\ savedTrips w' = [Sample.old]
    /\ localStorage w' = Some [Sample.old].
Proof.
  destruct (rejected_import_changes_nothing (Sample.env Sample.route 5)
              (Sample.withLibrary Sample.generated)
              (Sample.importFile Sample.noStamps) Sample.noStamps eq_refl)
    as (w' & Hrun & _ & Hsaved & Hstored & _).
  - unfold Sample.noStamps. rewrite invalidFormat_without_stamps by reflexivity.
    discriminate.
  - exists w'. split; [exact Hrun|]. split.
    + rewrite Hsaved. reflexivity.
    + rewrite Hstored. reflexivity.
Defined.

(** C9, the code at a failing input.  A document whose [coordinates] is
    a string is not a valid import: its coordinates are no sequence.
    The test of [onImportTrip] lets it through all the same, for it asks
    only whether [coordinates] is truthy.  With a route on screen and one
    trip saved, the import then shows no alert, puts the document at the
    head of the list in memory and of the store, replaces the input text
    and empties the route: the saved trips, durable storage and the
    active route are all altered. *)
Theorem C9_invalid_document_alters_the_library :
  let env := Sample.env Sample.route 5 in
  let w := Sample.withLibrary Sample.generated in
  let file := Sample.importFile Sample.textCoordinates in
  (exists v, getProp Sample.textCoordinates "coordinates" = Ok v /\ isArray v = false)
  /\ exists w',
       onImportTrip_onload env file w = (Returned tt, w')
       /\ alerts w' = alerts w
       /\ map SavedTrip.id (savedTrips w) = ["old"]
       /\ map SavedTrip.id (savedTrips w') = ["t1"; "old"]
       /\ option_map (map SavedTrip.id) (localStorage w) = Some ["old"]
       /\ option_map (map SavedTrip.id) (localStorage w') = Some ["t1"; "old"]
       /\ map ValidCoordinate.name (routeCoordinates w) = ["Paris"; "Rome"]
       /\ routeCoordinates w' = []
       /\ locationInput w = "Paris, Atlantis, Rome"
       /\ locationInput w' = "Paris".
Proof.
  cbv zeta. split.
  - eexists. split; reflexivity.
  - eexists. split; [vm_compute; reflexivity|]. vm_compute. repeat split.
Qed.

(** C4, the code at a failing input: a document whose [coordinates] is a
    string and whose [stamps] is an array passes the test of
    [onImportTrip], although its [coordinates] is not an array; the trip
    is put into the list in memory and into [localStorage], no alert is
    shown, and the callback of [loadTrip] then throws on
    [trip.coordinates.map], leaving the route empty. *)
Theorem C4_non_array_coordinates_pass_the_test :
  let env := Sample.env Sample.route 5 in
  let file := Sample.importFile Sample.textCoordinates in
  getProp Sample.textCoordinates "coordinates" = Ok (JStr "48.85,2.35")
  /\ isArray (JStr "48.85,2.35") = false
  /\ invalidFormat Sample.textCoordinates = Ok false
  /\ exists trip,
       asSavedTrip Sample.textCoordinates = Some trip
       /\ SavedTrip.coordinates trip = CoordOther (NaStr "48.85,2.35")
       /\ exists w',
            onImportTrip_onload env file Sample.initial = (Returned tt, w')
            /\ savedTrips w' = [trip]
            /\ localStorage w' = Some [trip]
            /\ alerts w' = []
            /\ timers w' = [LoadTripTimeout trip]
            /\ routeCoordinates w' = []
            /\ exists e, runTask env (LoadTripTimeout trip) w' = (Thrown e, w').
Proof.
  cbv zeta. split; [reflexivity|]. split; [reflexivity|]. split; [reflexivity|].
  eexists. split; [vm_compute; reflexivity|]. split; [reflexivity|].
  eexists. split; [vm_compute; reflexivity|].
  repeat split. eexists. reflexivity.
Qed.

(** ** The icon service and the busy flags *)

Lemma generateCustomIcon_try_world env base64Image mimeType w :
  snd (generateCustomIcon_try env base64Image mimeType w) = w
  /\ fst (generateCustomIcon_try env base64Image mimeType w) <> Stuck.
Proof.
  unfold generateCustomIcon_try. run_handler.
  destruct (Env.analyze env mimeType base64Image) as [e|[t|]];
    try (split; [reflexivity|discriminate]).
  destruct (Env.imagen env (iconPrompt (trim t))) as [e|images];
    try (split; [reflexivity|discriminate]).
  unfold firstImageUrl. run_handler.
  destruct images as [[|first rest]|]; try (split; [reflexivity|discriminate]).
  destruct (GeneratedImage.image first) as [img|]; try (split; [reflexivity|discriminate]).
  destruct (Image.imageBytes img); split; try reflexivity; discriminate.
Qed.

(** C10: [generateCustomIcon] always returns a string and never throws;
    whenever its [try] block throws, in particular when the analysis call
    or the generation call fails, what it returns is the uploaded image
    as a data URI with the uploaded mime type. *)
Theorem C10_generateCustomIcon_always_returns env base64Image mimeType w :
  exists url,
    generateCustomIcon env base64Image mimeType w = (Returned url, w)
    /\ (forall e w', generateCustomIcon_try env base64Image mimeType w = (Thrown e, w') ->
          url = "data:" +++ mimeType +++ ";base64," +++ base64Image)
    /\ (forall e, Env.analyze env mimeType base64Image = ReplyError e ->
          url = "data:" +++ mimeType +++ ";base64," +++ base64Image)
    /\ (forall t e, Env.analyze env mimeType base64Image = Reply (Some t) ->
          Env.imagen env (iconPrompt (trim t)) = ReplyError e ->
          url = "data:" +++ mimeType +++ ";base64," +++ base64Image).
Proof.
  destruct (generateCustomIcon_try_world env base64Image mimeType w) as [Hw Hs].
  unfold generateCustomIcon, tryCatch.
  destruct (generateCustomIcon_try env base64Image mimeType w) as [[url|e|] w1] eqn:Etry;
    cbn [fst snd] in Hw, Hs; subst w1.
  - exists url. split; [reflexivity|]. split; [intros e w' H; discriminate H|].
    unfold generateCustomIcon_try in Etry. revert Etry. run_handler. split.
    + intros e He. rewrite He in Etry. discriminate Etry.
    + intros t e Ht He. rewrite Ht, He in Etry. discriminate Etry.
  - eexists. split; [reflexivity|]. repeat split.
  - now elim Hs.
Qed.

(** A run of C10's theorem with the AI out of quota. *)
Lemma C10_witness :
  generateCustomIcon (Sample.env Sample.route 5) "iVBORw0KGgo=" "image/png" Sample.initial
  = (Returned "data:image/png;base64,iVBORw0KGgo=", Sample.initial).
Proof.
  destruct (C10_generateCustomIcon_always_returns (Sample.env Sample.route 5)
              "iVBORw0KGgo=" "image/png" Sample.initial)
    as (url & Hrun & _ & Hfail & _).
  rewrite Hrun. rewrite (Hfail Sample.quotaError eq_refl). reflexivity.
Defined.

(** The handlers that reset their flag in a [finally] block, or in both
    callbacks of the promise. *)
Lemma onGenerateRoute_resets_isLoading env w :
  isLoading (exec (onGenerateRoute env) w)
  = if nonEmpty (trim (locationInput w)) then false else isLoading w.
Proof.
  destruct (nonEmpty (trim (locationInput w))) eqn:Hin.
  - destruct (Env.geocode env (parseLocations (trim (locationInput w))))
      as [e|[| |o]] eqn:Hgeo.
    + unfold onGenerateRoute, getCoordinatesForLocations. run_handler.
      rewrite Hin, Hgeo. cbn [negb]. destruct (isQuotaError e); reflexivity.
    + unfold onGenerateRoute, getCoordinatesForLocations. run_handler.
      rewrite Hin, Hgeo. reflexivity.
    + unfold onGenerateRoute, getCoordinatesForLocations. run_handler.
      rewrite Hin, Hgeo. reflexivity.
    + apply (onGenerateRoute_resolved env w o Hin Hgeo).
  - unfold onGenerateRoute. run_handler. rewrite Hin. reflexivity.
Qed.

Lemma generateAiStamp_resets_isGeneratingStamp env w current :
  editingStamp w = Some current ->
  nonEmpty (stampPrompt w) = true ->
  isGeneratingStamp (exec (generateAiStamp env) w) = false.
Proof.
  intros Hcur Hprompt. unfold generateAiStamp, generateStampImage. run_handler.
  rewrite Hcur, Hprompt. cbn [negb].
  destruct (Env.imagen env (stampPromptText (Stamp.name current) (stampPrompt w)))
    as [e|images]; [reflexivity|].
  unfold firstImageUrl. run_handler.
  destruct images as [[|first rest]|]; try reflexivity.
  destruct (GeneratedImage.image first) as [img|]; try reflexivity.
  destruct (Image.imageBytes img); reflexivity.
Qed.

Lemma downloadEach_world env selected w :
  snd (downloadEach env selected w) = w /\ fst (downloadEach env selected w) <> Stuck.
Proof.
  induction selected as [|stamp rest IH]; cbn [downloadEach].
  - split; [reflexivity|discriminate].
  - destruct (Env.captureStamp env (Stamp.id stamp)) as [[e|url]|]; run_handler.
    + split; [reflexivity|discriminate].
    + exact IH.
    + exact IH.
Qed.

Lemma downloadSelectedStamps_resets_isExporting env w :
  filter Stamp.selected (stamps w) <> [] ->
  isExporting (exec (downloadSelectedStamps env) w) = false.
Proof.
  intros Hsel. unfold downloadSelectedStamps. run_handler.
  destruct (filter Stamp.selected (stamps w)) as [|s rest]; [now elim Hsel|].
  destruct (downloadEach_world env (s :: rest) (set_isExporting true w)) as [Hw Hs].
  destruct (downloadEach env (s :: rest) (set_isExporting true w)) as [[[]|e|] w1];
    cbn [fst snd] in Hw, Hs; subst w1; try reflexivity.
  now elim Hs.
Qed.

Lemma exportMapImage_resets_isExporting env w capture :
  Env.captureMap env = Some capture ->
  isExporting (exec (exportMapImage env) w) = true
  /\ forall w1, isExporting (exec (runTask env ExportTimeout) w1) = false.
Proof.
  intros Hcap. unfold exportMapImage, runTask, exportMapImage_timeout. run_handler.
  rewrite Hcap. split; [reflexivity|].
  intros w1. destruct capture as [e|[e|image]]; reflexivity.
Qed.

(** C5, the code at a failing input: when the file's data URL does not
    match the regular expression of [onUploadIcon], as for an empty
    file, the handler sets [isGeneratingIcon] and returns; its [catch]
    block has nothing to catch, because the error is thrown later, in the
    [onload] callback; the callback throws before it touches the world,
    so once it has run [isGeneratingIcon] is still set and no callback
    is left to clear it. *)
Theorem C5_icon_flag_is_left_set env w file base64Full :
  (File.size file <= 5 * 1024 * 1024)%N ->
  File.dataURL file = Some base64Full ->
  matchDataUrl base64Full = None ->
  timers w = [] ->
  let w1 := exec (onUploadIcon [file]) w in
  onUploadIcon [file] w = (Returned tt, w1)
  /\ isGeneratingIcon w1 = true
  /\ timers w1 = [IconReaderOnload file]
  /\ runTask env (IconReaderOnload file) (set_timers [] w1)
     = (Thrown (Error "Invalid image format"), set_timers [] w1)
  /\ isGeneratingIcon (runNext env w1) = true
  /\ timers (runNext env w1) = [].
Proof.
  intros Hsize Hurl Hmatch Htimers w1.
  assert (Hrun : onUploadIcon [file] w
                 = (Returned tt,
                    set_timers (timers w ++ [IconReaderOnload file])
                      (set_statusMessage "Designing your custom icon..."
                         (set_isGeneratingIcon true w)))).
  { unfold onUploadIcon. run_handler.
    apply N.ltb_ge in Hsize. rewrite Hsize. reflexivity. }
  assert (Hw1 : w1 = set_timers [IconReaderOnload file]
                       (set_statusMessage "Designing your custom icon..."
                          (set_isGeneratingIcon true w))).
  { unfold w1, exec. rewrite Hrun, Htimers. reflexivity. }
  assert (Htask : forall w2, runTask env (IconReaderOnload file) w2
                             = (Thrown (Error "Invalid image format"), w2)).
  { intros w2. unfold runTask, onUploadIcon_onload. now rewrite Hurl, Hmatch. }
  split; [unfold w1, exec; now rewrite Hrun|].
  rewrite Hw1. split; [reflexivity|]. split; [reflexivity|]. split; [apply Htask|].
  unfold runNext, exec. cbn [timers set_timers]. rewrite Htask. split; reflexivity.
Qed.

(** A run of C5's theorem: an empty file is picked. *)
Lemma C5_witness :
  isGeneratingIcon
    (runNext (Sample.env Sample.route 5)
       (exec (onUploadIcon [Sample.emptyFile]) Sample.initial)) = true
  /\ timers
       (runNext (Sample.env Sample.route 5)
          (exec (onUploadIcon [Sample.emptyFile]) Sample.initial)) = [].
Proof.
  destruct (C5_icon_flag_is_left_set (Sample.env Sample.route 5) Sample.initial
              Sample.emptyFile "data:application/octet-stream;base64,")
    as (_ & _ & _ & _ & Hflag & Hnone).
  - vm_compute. discriminate.
  - reflexivity.
  - reflexivity.
  - reflexivity.
  - split; [exact Hflag | exact Hnone].
Defined.

(** * Further properties *)

(** ** Parsing the input *)

Lemma trimStart_length s : String.length (trimStart s) <= String.length s.
Proof.
  induction s as [|c s IH]; simpl; [lia|].
  destruct (isWhiteSpace c); simpl; lia.
Qed.

Lemma trimStart_fixed s :
  String.length (trimStart s) = String.length s -> trimStart s = s.
Proof.
  destruct s as [|c s]; simpl; [reflexivity|].
  destruct (isWhiteSpace c); [|reflexivity].
  pose proof (trimStart_length s). simpl. lia.
Qed.

Lemma trimEnd_length s : String.length (trimEnd s) <= String.length s.
Proof.
  induction s as [|c s IH]; simpl; [lia|].
  destruct (isWhiteSpace c && negb (nonEmpty (trimEnd s))); simpl; lia.
Qed.

Lemma trimEnd_fixed s :
  String.length (trimEnd s) = String.length s -> trimEnd s = s.
Proof.
  induction s as [|c s IH]; simpl; [reflexivity|].
  destruct (isWhiteSpace c && negb (nonEmpty (trimEnd s))); simpl.
  - discriminate.
  - intros H. f_equal. apply IH. lia.
Qed.

Lemma trim_fixed s : trim s = s -> trimStart s = s /\ trimEnd s = s.
Proof.
  unfold trim. intros H.
  assert (Hs : trimStart s = s).
  { apply trimStart_fixed. apply Nat.le_antisymm; [apply trimStart_length|].
    rewrite <- H at 1. apply trimEnd_length. }
  rewrite Hs in H. split; assumption.
Qed.

Lemma trimEnd_idem s : trimEnd (trimEnd s) = trimEnd s.
Proof.
  induction s as [|c s IH]; simpl; [reflexivity|].
  destruct (isWhiteSpace c && negb (nonEmpty (trimEnd s))) eqn:E; simpl; [reflexivity|].
  now rewrite IH, E.
Qed.

Lemma trimStart_head s c r : trimStart s = String c r -> isWhiteSpace c = false.
Proof.
  induction s as [|a s IH]; simpl; [discriminate|].
  destruct (isWhiteSpace a) eqn:E; [exact IH|].
  intros H. inversion H; subst. exact E.
Qed.

Lemma trim_idem s : trim (trim s) = trim s.
Proof.
  unfold trim. destruct (trimStart s) as [|c r] eqn:E; [reflexivity|].
  pose proof (trimStart_head _ _ _ E) as Hc.
  cbn [trimEnd]. rewrite Hc. cbn [andb trimStart]. rewrite Hc.
  change (trimEnd (String c (trimEnd r))) with
    (if isWhiteSpace c && negb (nonEmpty (trimEnd (trimEnd r))) then EmptyString
     else String c (trimEnd (trimEnd r))).
  now rewrite Hc, trimEnd_idem.
Qed.



Lemma trimStart_chars s c : In c (chars (trimStart s)) -> In c (chars s).
Proof.
  induction s as [|a s IH]; simpl; [tauto|].
  destruct (isWhiteSpace a); simpl; tauto.
Qed.

Lemma trimEnd_chars s c : In c (chars (trimEnd s)) -> In c (chars s).
Proof.
  induction s as [|a s IH]; simpl; [tauto|].
  destruct (isWhiteSpace a && negb (nonEmpty (trimEnd s))); simpl; tauto.
Qed.

Lemma split_pieces sep s p : In p (split sep s) -> ~ In sep (chars p).
Proof.
  revert p. induction s as [|c s IH]; intros p; simpl.
  - intros [<-|[]]. simpl. tauto.
  - destruct (Ascii.eqb c sep) eqn:E.
    + intros [<-|H]; [simpl; tauto | now apply IH].
    + destruct (split sep s) as [|piece pieces] eqn:Es.
      * intros [<-|[]]. simpl. apply Ascii.eqb_neq in E. intros [H|[]]. congruence.
      * intros [<-|H].
        -- simpl. apply Ascii.eqb_neq in E. intros [H|H]; [congruence|].
           apply (IH piece); [now left | exact H].
        -- apply IH. now right.
Qed.

(** X1: every name that [parseLocations] yields is non-empty, has no
    white space left at either end and holds no comma. *)
Theorem parseLocations_yields_clean_names rawInput x :
  In x (parseLocations rawInput) -> cleanName x.
Proof.
  unfold parseLocations. intros H. apply filter_In in H. destruct H as [H Hne].
  apply in_map_iff in H. destruct H as (p & <- & Hp).
  split; [exact Hne|]. split; [apply trim_idem|].
  intros Hc. apply (split_pieces _ _ _ Hp).
  apply trimStart_chars, trimEnd_chars. exact Hc.
Qed.

Lemma parseLocations_yields_clean_names_witness : cleanName "Rome".
Proof.
  apply (parseLocations_yields_clean_names "Paris,  Rome ,").
  vm_compute. right. left. reflexivity.
Defined.

Lemma split_without_sep sep x : ~ In sep (chars x) -> split sep x = [x].
Proof.
  induction x as [|c x IH]; simpl; [reflexivity|].
  intros H. destruct (Ascii.eqb c sep) eqn:E.
  - apply Ascii.eqb_eq in E. tauto.
  - rewrite IH by tauto. reflexivity.
Qed.

Lemma split_app sep x r :
  ~ In sep (chars x) -> split sep (x +++ String sep r) = x :: split sep r.
Proof.
  induction x as [|c x IH]; simpl.
  - intros _. now rewrite Ascii.eqb_refl.
  - intros H. destruct (Ascii.eqb c sep) eqn:E.
    + apply Ascii.eqb_eq in E. tauto.
    + rewrite IH by tauto. reflexivity.
Qed.

Lemma trimStart_app x r :
  nonEmpty x = true -> trimStart x = x -> trimStart (x +++ r) = x +++ r.
Proof.
  destruct x as [|c x]; [discriminate|]. intros _ H.
  pose proof (trimStart_head _ _ _ H) as Hc. simpl. now rewrite Hc.
Qed.

Lemma nonEmpty_app_r a b : nonEmpty b = true -> nonEmpty (a +++ b) = true.
Proof. destruct a; simpl; auto. Qed.

Lemma trimEnd_app a b :
  nonEmpty b = true -> trimEnd b = b -> trimEnd (a +++ b) = a +++ b.
Proof.
  intros Hb Hfix. induction a as [|c a IH]; simpl; [exact Hfix|].
  rewrite IH, (nonEmpty_app_r a b Hb). cbn [negb]. now rewrite andb_false_r.
Qed.

Lemma append_assoc (a b c : string) : (a +++ b) +++ c = a +++ b +++ c.
Proof. induction a as [|x a IH]; simpl; [reflexivity|now rewrite IH]. Qed.

Lemma concat_cons sep x y l :
  String.concat sep (x :: y :: l) = x +++ sep +++ String.concat sep (y :: l).
Proof. reflexivity. Qed.

Lemma concat_clean l :
  l <> [] -> Forall cleanName l ->
  nonEmpty (String.concat ", " l) = true
  /\ trimStart (String.concat ", " l) = String.concat ", " l
  /\ trimEnd (String.concat ", " l) = String.concat ", " l.
Proof.
  induction l as [|x l IH]; [congruence|]. intros _ Hall.
  inversion Hall as [|? ? (Hne & Htrim & _) Hrest]; subst.
  destruct (trim_fixed x Htrim) as [Hs He].
  destruct l as [|y l].
  - simpl. auto.
  - rewrite concat_cons. destruct (IH ltac:(discriminate) Hrest) as (Hn & _ & Hend).
    split; [|split].
    + destruct x; [discriminate|reflexivity].
    + now apply trimStart_app.
    + rewrite <- append_assoc. now apply trimEnd_app.
Qed.

Lemma trim_space_clean y : cleanName y -> trim (String " " y) = y.
Proof.
  intros (_ & Htrim & _). destruct (trim_fixed y Htrim) as [Hs He].
  unfold trim. cbn [trimStart]. change (isWhiteSpace " ") with true. cbn iota.
  now rewrite Hs.
Qed.

Lemma clean_with_space_no_comma y :
  cleanName y -> ~ In ","%char (chars (String " " y)).
Proof.
  intros (_ & _ & H). simpl. intros [E|E]; [discriminate E | exact (H E)].
Qed.

Lemma parse_tail l :
  l <> [] -> Forall cleanName l ->
  filter nonEmpty (map trim (split "," (String " " (String.concat ", " l)))) = l.
Proof.
  induction l as [|y l IH]; [congruence|]. intros _ Hall.
  inversion Hall as [|? ? Hy Hrest]; subst.
  destruct l as [|z l].
  - cbn [String.concat]. rewrite split_without_sep by now apply clean_with_space_no_comma.
    cbn [map filter]. rewrite (trim_space_clean y Hy). now destruct Hy as (-> & _).
  - rewrite concat_cons.
    change (String " " (y +++ ", " +++ String.concat ", " (z :: l)))
      with (String " " y +++ String "," (String " " (String.concat ", " (z :: l)))).
    rewrite split_app by now apply clean_with_space_no_comma.
    cbn [map filter]. rewrite (trim_space_clean y Hy).
    destruct Hy as (-> & _). f_equal. apply IH; [discriminate|exact Hrest].
Qed.

(** X2: names that are clean (non-empty, trimmed, without a comma),
    written with a comma and a space between them, are parsed back to the
    same list: the input of [onGenerateRoute] for them is read as typed. *)
Theorem parseLocations_reads_back_joined_names names :
  Forall cleanName names ->
  parseLocations (trim (String.concat ", " names)) = names.
Proof.
  intros Hall. destruct names as [|x l]; [reflexivity|].
  destruct (concat_clean (x :: l) ltac:(discriminate) Hall) as (_ & Hs & He).
  unfold trim. rewrite Hs, He. unfold parseLocations.
  inversion Hall as [|? ? Hx Hrest]; subst.
  destruct l as [|y l].
  - cbn [String.concat]. destruct Hx as (Hne & Htrim & Hc).
    rewrite split_without_sep by exact Hc. cbn [map filter]. now rewrite Htrim, Hne.
  - rewrite concat_cons.
    change (x +++ ", " +++ String.concat ", " (y :: l))
      with (x +++ String "," (String " " (String.concat ", " (y :: l)))).
    destruct Hx as (Hne & Htrim & Hc).
    rewrite split_app by exact Hc. cbn [map filter]. rewrite Htrim, Hne.
    f_equal. apply parse_tail; [discriminate|exact Hrest].
Qed.

Lemma parseLocations_reads_back_joined_names_witness :
  parseLocations (trim "Paris, New York, Rome") = ["Paris"; "New York"; "Rome"].
Proof.
  apply (parseLocations_reads_back_joined_names ["Paris"; "New York"; "Rome"]).
  repeat constructor; simpl; intros H; repeat (destruct H as [H|H]; [discriminate H|]); exact H.
Defined.

(** ** Route generation: the other paths *)


(** X3: with an input that is empty or all white space [onGenerateRoute]
    returns at once and changes nothing: the route shown, its stamps and
    the status stay as they were. *)
Theorem onGenerateRoute_blank_input_changes_nothing env w :
  nonEmpty (trim (locationInput w)) = false ->
  onGenerateRoute env w = (Returned tt, w).
Proof.
  intros Hblank. unfold onGenerateRoute, bind, gets.
  rewrite Hblank. reflexivity.
Qed.

Lemma onGenerateRoute_blank_input_changes_nothing_witness :
  onGenerateRoute (Sample.env Sample.route 5) (set_locationInput "   " Sample.generated)
  = (Returned tt, set_locationInput "   " Sample.generated).
Proof.
  apply (onGenerateRoute_blank_input_changes_nothing (Sample.env Sample.route 5)).
  reflexivity.
Defined.


(** X4: when the resolver call fails, the handler still returns; the
    route, the missing list and the stamps are empty, the custom icon is
    gone, [isLoading] is reset, and the status tells a quota error from
    any other failure.  The saved trips and the store are untouched. *)
Theorem onGenerateRoute_resolver_failure env w e :
  nonEmpty (trim (locationInput w)) = true ->
  (forall w0, getCoordinatesForLocations env (parseLocations (trim (locationInput w))) w0
              = (Thrown e, w0)) ->
  exists w',
    onGenerateRoute env w = (Returned tt, w')
    /\ routeCoordinates w' = [] /\ missingLocations w' = [] /\ stamps w' = []
    /\ customIconUrl w' = None
    /\ isLoading w' = false
    /\ statusMessage w'
       = (if isQuotaError e then "AI Quota Exceeded. Please try again later."
          else "Something went wrong. Please check your internet connection.")
    /\ savedTrips w' = savedTrips w /\ localStorage w' = localStorage w
    /\ locationInput w' = locationInput w.
Proof.
  intros Hin Hfail. unfold onGenerateRoute. run_handler. rewrite Hin. cbn [negb].
  rewrite Hfail. exists (exec (onGenerateRoute env) w).
  unfold onGenerateRoute. run_handler. rewrite Hin. cbn [negb]. rewrite Hfail.
  destruct (isQuotaError e); repeat split.
Qed.

Lemma onGenerateRoute_resolver_failure_witness :
  statusMessage
    (exec (onGenerateRoute
             (Env.mk "" 0%Q (fun _ => "") (fun _ => 0%Q)
                (fun _ => ReplyError Sample.quotaError)
                (fun _ _ => ReplyError Sample.quotaError)
                (fun _ => ReplyError Sample.quotaError)
                (fun _ => None) None (fun _ => true)))
          (set_locationInput "Paris" Sample.generated))
  = "AI Quota Exceeded. Please try again later.".
Proof.
  destruct (onGenerateRoute_resolver_failure
              (Env.mk "" 0%Q (fun _ => "") (fun _ => 0%Q)
                 (fun _ => ReplyError Sample.quotaError)
                 (fun _ _ => ReplyError Sample.quotaError)
                 (fun _ => ReplyError Sample.quotaError)
                 (fun _ => None) None (fun _ => true))
              (set_locationInput "Paris" Sample.generated) Sample.quotaError
              eq_refl (fun w0 => eq_refl))
    as (w' & Hrun & _ & _ & _ & _ & _ & Hstatus & _).
  unfold exec. rewrite Hrun. exact Hstatus.
Defined.


Lemma onGenerateRoute_resolved_run env w o :
  nonEmpty (trim (locationInput w)) = true ->
  Env.geocode env (parseLocations (trim (locationInput w))) = Reply (BodyObject o) ->
  let w' := exec (onGenerateRoute env) w in
  onGenerateRoute env w = (Returned tt, w')
  /\ savedTrips w' = savedTrips w /\ localStorage w' = localStorage w
  /\ customIconUrl w' = None /\ locationInput w' = locationInput w
  /\ statusMessage w'
     = match lefts (classifyAll (waypointsOr o) 0 (parseLocations (trim (locationInput w)))),
             rights (classifyAll (waypointsOr o) 0 (parseLocations (trim (locationInput w)))) with
       | [], _ => "Could not find any of those locations."
       | _ :: _, [] => "Route mapped!"
       | valid, missing =>
           "Found " +++ showNat (length valid) +++ " places. "
           +++ showNat (length missing) +++ " missing."
       end.
Proof.
  intros Hin Hgeo w'. subst w'.
  unfold onGenerateRoute. run_handler. rewrite Hin. cbv beta iota delta [negb].
  rewrite (getCoordinatesForLocations_object _ _ _ _ Hgeo).
  rewrite filterValidVsMissing_spec. cbn [app].
  destruct (lefts _) as [|c valid]; [repeat split|].
  unfold createVisualStamps. run_handler.
  destruct (rights _) as [|m missing]; cbn [length Nat.ltb Nat.leb];
    rewrite mapStamps_run; repeat split.
Qed.


Lemma classifyAll_none_valid raw index locations :
  (forall item, In item raw -> forall la ln,
     LocationCoordinate.lat item = Some la -> LocationCoordinate.lng item = Some ln ->
     (la == 0)%Q \/ (ln == 0)%Q) ->
  lefts (classifyAll raw index locations) = []
  /\ length (rights (classifyAll raw index locations)) = length raw.
Proof.
  revert index. induction raw as [|item rest IH]; intros index H; [split; reflexivity|].
  cbn [classifyAll].
  assert (Hc : classify item index locations = inr (missingName item index locations)).
  { unfold classify.
    destruct (LocationCoordinate.lat item) as [la|] eqn:Ela; [|reflexivity].
    destruct (LocationCoordinate.lng item) as [ln|] eqn:Eln; [|reflexivity].
    destruct (notZero la) eqn:Za, (notZero ln) eqn:Zn; try reflexivity.
    apply notZero_true_iff in Za, Zn.
    destruct (H item (or_introl eq_refl) la ln Ela Eln); tauto. }
  rewrite Hc. cbn [lefts rights length].
  destruct (IH (S index) (fun i Hi => H i (or_intror Hi))) as [-> ->]. split; reflexivity.
Qed.

(** X6: when no entry of the response has both coordinates present and
    non-zero (in particular when the response is empty), the route and
    the stamps stay empty, every entry is listed as missing, no id is
    drawn, and the status says that nothing was found. *)
Theorem onGenerateRoute_nothing_found env w o :
  nonEmpty (trim (locationInput w)) = true ->
  Env.geocode env (parseLocations (trim (locationInput w))) = Reply (BodyObject o) ->
  (forall item, In item (waypointsOr o) -> forall la ln,
     LocationCoordinate.lat item = Some la -> LocationCoordinate.lng item = Some ln ->
     (la == 0)%Q \/ (ln == 0)%Q) ->
  let w' := exec (onGenerateRoute env) w in
  routeCoordinates w' = [] /\ stamps w' = []
  /\ length (missingLocations w') = length (waypointsOr o)
  /\ statusMessage w' = "Could not find any of those locations."
  /\ isLoading w' = false.
Proof.
  intros Hin Hgeo Hnone w'.
  destruct (classifyAll_none_valid (waypointsOr o) 0
              (parseLocations (trim (locationInput w))) Hnone) as [Hl Hr].
  destruct (onGenerateRoute_resolved env w o Hin Hgeo) as (H1 & H2 & H3 & H4).
  destruct (onGenerateRoute_resolved_run env w o Hin Hgeo) as (_ & _ & _ & _ & _ & H5).
  fold w' in H1, H2, H3, H4, H5. rewrite Hl in *.
  repeat split; try assumption. now rewrite H2.
Qed.

Lemma onGenerateRoute_nothing_found_witness :
  let w' := exec (onGenerateRoute
                    (Sample.env (BodyObject (Some [Sample.atlantis; Sample.quito])) 5))
                 (set_locationInput "Atlantis, Mitad del Mundo" Sample.generated) in
  routeCoordinates w' = [] /\ stamps w' = [] /\ length (missingLocations w') = 2.
Proof.
  intros w'.
  destruct (onGenerateRoute_nothing_found
              (Sample.env (BodyObject (Some [Sample.atlantis; Sample.quito])) 5)
              (set_locationInput "Atlantis, Mitad del Mundo" Sample.generated)
              (Some [Sample.atlantis; Sample.quito]) eq_refl eq_refl)
    as (H1 & H2 & H3 & _).
  - intros item [<-|[<-|[]]] la ln Hla Hln; [discriminate Hla|].
    inversion Hla; subst. left. reflexivity.
  - repeat split; assumption.
Defined.

Lemma stampList_defaults env coords i a b :
  Forall (fun s => Stamp.selected s = false /\ Stamp.imageUrl s = None
                   /\ Stamp.description s = Some "Classic ink stamp"
                   /\ Stamp.time s = "12:00" /\ Stamp.date s = Env.today env)
    (stampList env coords i a b).
Proof.
  revert i a b. induction coords as [|c rest IH]; intros i a b; cbn [stampList].
  - constructor.
  - constructor; [cbn; auto | apply IH].
Qed.

Lemma stampList_ids env coords i a b :
  map Stamp.id (stampList env coords i a b)
  = map (fun k => "stamp-" +++ Env.newId env k) (seq a (length coords)).
Proof.
  revert i a b. induction coords as [|c rest IH]; intros i a b; cbn [stampList length seq map].
  - reflexivity.
  - now rewrite IH.
Qed.

(** X7: the stamps of a freshly generated route are all unselected, have
    no image, carry the default description, the time 12:00 and today's
    date, so [allStampsSelected] is false. *)
Theorem onGenerateRoute_stamps_are_plain env w o :
  nonEmpty (trim (locationInput w)) = true ->
  Env.geocode env (parseLocations (trim (locationInput w))) = Reply (BodyObject o) ->
  let w' := exec (onGenerateRoute env) w in
  Forall (fun s => Stamp.selected s = false /\ Stamp.imageUrl s = None
                   /\ Stamp.description s = Some "Classic ink stamp"
                   /\ Stamp.time s = "12:00" /\ Stamp.date s = Env.today env)
    (stamps w')
  /\ allStampsSelected w' = false.
Proof.
  intros Hin Hgeo w'.
  destruct (onGenerateRoute_resolved env w o Hin Hgeo) as (_ & _ & Hs & _).
  fold w' in Hs. unfold allStampsSelected. rewrite Hs.
  split; [apply stampList_defaults|].
  destruct (lefts _) as [|c rest]; [reflexivity|].
  cbn [stampList length Nat.ltb Nat.leb forallb Stamp.selected andb]. reflexivity.
Qed.

Lemma onGenerateRoute_stamps_are_plain_witness :
  allStampsSelected Sample.generated = false.
Proof.
  exact (proj2 (onGenerateRoute_stamps_are_plain (Sample.env Sample.route 5)
                  (set_locationInput "Paris, Atlantis, Rome" Sample.initial)
                  (Some [Sample.paris; Sample.atlantis; Sample.rome]) eq_refl eq_refl)).
Defined.

Lemma NoDup_map_injective {A B} (f : A -> B) (l : list A) :
  (forall x y, f x = f y -> x = y) -> NoDup l -> NoDup (map f l).
Proof.
  intros Hinj Hl. induction Hl as [|x l Hx Hl IH]; cbn [map]; constructor.
  - intros Hin. apply in_map_iff in Hin. destruct Hin as (y & Hy & Hyl).
    apply Hinj in Hy. now subst.
  - exact IH.
Qed.

Lemma strokes_injective m n : Demo.strokes m = Demo.strokes n -> m = n.
Proof.
  revert n. induction m as [|m IH]; intros [|n] H; try discriminate H; [reflexivity|].
  inversion H. f_equal. now apply IH.
Qed.

(** X8: when [generateId] never repeats a string, the stamps of a
    generated route have pairwise distinct ids. *)
Theorem onGenerateRoute_stamp_ids_distinct env w o :
  nonEmpty (trim (locationInput w)) = true ->
  Env.geocode env (parseLocations (trim (locationInput w))) = Reply (BodyObject o) ->
  (forall m n, Env.newId env m = Env.newId env n -> m = n) ->
  NoDup (map Stamp.id (stamps (exec (onGenerateRoute env) w))).
Proof.
  intros Hin Hgeo Hinj.
  destruct (onGenerateRoute_resolved env w o Hin Hgeo) as (_ & _ & Hs & _).
  cbv zeta in Hs. rewrite Hs, stampList_ids.
  apply NoDup_map_injective; [|apply seq_NoDup].
  intros m n H. apply Hinj. now inversion H.
Qed.

Lemma onGenerateRoute_stamp_ids_distinct_witness :
  NoDup (map Stamp.id
           (stamps (exec (onGenerateRoute Demo.failing)
                      (set_locationInput "Paris, Atlantis, Rome" Sample.initial)))).
Proof.
  apply (onGenerateRoute_stamp_ids_distinct Demo.failing
           (set_locationInput "Paris, Atlantis, Rome" Sample.initial)
           (Some [Sample.paris; Sample.atlantis; Sample.rome]) eq_refl eq_refl).
  intros m n H. cbn in H. inversion H. now apply strokes_injective.
Defined.

(** ** Selecting and editing stamps *)

Lemma world_eta w :
  mkWorld (locationInput w) (isLoading w) (isExporting w) (isGeneratingIcon w)
    (mapStyle w) (routeColor w) (routeWeight w) (customIconUrl w) (mapHeight w)
    (routeCoordinates w) (missingLocations w) (stamps w) (statusMessage w)
    (savedTrips w) (tripToDelete w) (editingStamp w) (isGeneratingStamp w)
    (stampPrompt w) (localStorage w) (alerts w) (timers w) (idsDrawn w)
    (randomsDrawn w) = w.
Proof. destruct w; reflexivity. Qed.

(** X9: [toggleStampSelection] changes nothing but the [selected] flag
    of the stamps with the given id, which it inverts; toggling the same
    id twice gives back the world as it was. *)
Theorem toggleStampSelection_twice id w :
  exec (toggleStampSelection id) (exec (toggleStampSelection id) w) = w
  /\ map (withSelected false) (stamps (exec (toggleStampSelection id) w))
     = map (withSelected false) (stamps w)
  /\ map Stamp.selected (stamps (exec (toggleStampSelection id) w))
     = map (fun s => if String.eqb (Stamp.id s) id
                     then negb (Stamp.selected s) else Stamp.selected s) (stamps w).
Proof.
  unfold toggleStampSelection. run_handler. cbn [stamps set_stamps]. repeat split.
  - rewrite map_map.
    rewrite (map_ext _ (fun s => s)), map_id.
    + destruct w; reflexivity.
    + intros s. destruct (String.eqb (Stamp.id s) id) eqn:E.
      * cbn [withSelected Stamp.id]. rewrite E. destruct s; cbn.
        now rewrite negb_involutive.
      * now rewrite E.
  - rewrite map_map. apply map_ext. intros s.
    destruct (String.eqb (Stamp.id s) id); reflexivity.
  - rewrite map_map. apply map_ext. intros s.
    destruct (String.eqb (Stamp.id s) id); reflexivity.
Qed.

Lemma forallb_withSelected v (l : list Stamp.t) :
  forallb Stamp.selected (map (withSelected v) l) = (match l with [] => true | _ => v end).
Proof.
  induction l as [|s l IH]; [reflexivity|].
  cbn [map forallb withSelected Stamp.selected]. rewrite IH.
  destruct l, v; reflexivity.
Qed.

(** X10: [toggleAllStamps] selects every stamp unless all were selected
    already, in which case it clears every selection; nothing but the
    flags changes, and with at least one stamp [allStampsSelected] is
    inverted. *)
Theorem toggleAllStamps_inverts w :
  stamps w <> [] ->
  let w' := exec toggleAllStamps w in
  Forall (fun s => Stamp.selected s = negb (allStampsSelected w)) (stamps w')
  /\ map (withSelected false) (stamps w') = map (withSelected false) (stamps w)
  /\ allStampsSelected w' = negb (allStampsSelected w).
Proof.
  intros Hne w'. subst w'. unfold toggleAllStamps. run_handler. cbn [stamps set_stamps].
  repeat split.
  - apply Forall_forall. intros s Hs. apply in_map_iff in Hs.
    destruct Hs as (s0 & <- & _). reflexivity.
  - rewrite map_map. apply map_ext. intros s. reflexivity.
  - remember (allStampsSelected w) as a eqn:Ea. clear Ea.
    unfold allStampsSelected. cbn [stamps set_stamps].
    rewrite length_map, forallb_withSelected.
    destruct (stamps w) as [|s l]; [congruence|]. reflexivity.
Qed.

Lemma toggleAllStamps_inverts_witness :
  allStampsSelected (exec toggleAllStamps Sample.generated) = true.
Proof.
  refine (proj2 (proj2 (toggleAllStamps_inverts Sample.generated _))).
  vm_compute. discriminate.
Defined.

Lemma replace_own_stamp (l : list Stamp.t) stamp :
  In stamp l -> NoDup (map Stamp.id l) ->
  map (fun s => if String.eqb (Stamp.id s) (Stamp.id stamp) then stamp else s) l = l.
Proof.
  intros Hin Hnd. rewrite <- (map_id l) at 2. apply map_ext_in. intros s Hs.
  destruct (String.eqb (Stamp.id s) (Stamp.id stamp)) eqn:E; [|reflexivity].
  apply String.eqb_eq in E.
  clear -Hin Hs Hnd E. induction l as [|x l IH]; [destruct Hin|].
  cbn [map] in Hnd. inversion Hnd as [|? ? Hx Hl]; subst.
  destruct Hin as [->|Hin], Hs as [->|Hs]; try reflexivity.
  - exfalso. apply Hx. rewrite <- E. now apply in_map.
  - exfalso. apply Hx. rewrite E. now apply in_map.
  - now apply IH.
Qed.

(** X11: opening the editor on a stamp of the list and saving without
    an edit leaves the stamps as they were, provided the ids in the list
    are distinct, and closes the editor. *)
Theorem saveStampChanges_without_edit w stamp :
  In stamp (stamps w) ->
  NoDup (map Stamp.id (stamps w)) ->
  let w' := exec saveStampChanges (exec (openStampEditor stamp) w) in
  stamps w' = stamps w /\ editingStamp w' = None /\ isGeneratingStamp w' = false.
Proof.
  intros Hin Hnd w'. subst w'. unfold saveStampChanges, openStampEditor, closeStampEditor.
  run_handler. cbn [editingStamp stamps set_editingStamp set_stampPrompt set_stamps
                    set_isGeneratingStamp isGeneratingStamp].
  rewrite copyStamp_id. repeat split. now apply replace_own_stamp.
Qed.

Lemma saveStampChanges_without_edit_witness :
  stamps (exec saveStampChanges
            (exec (openStampEditor (nth 1 (stamps Sample.generated) Demo.noStamp))
               Sample.generated))
  = stamps Sample.generated.
Proof.
  refine (proj1 (saveStampChanges_without_edit Sample.generated _ _ _)).
  - vm_compute. right. left. reflexivity.
  - vm_compute. repeat constructor; simpl; intros H;
      repeat (destruct H as [H|H]; [discriminate H|]); exact H.
Defined.

(** X12: the editing flow end to end.  The editor is opened on a stamp,
    the image service draws a picture for its prompt, and the change is
    saved: every stamp with that id becomes the edited stamp, with the
    picture as a JPEG data URI and the prompt as description; the other
    stamps are as before, the editor is closed, the busy flag is reset
    and no alert was shown. *)
Theorem edit_generate_save env w stamp bytes rest :
  let w1 := exec (openStampEditor stamp) w in
  Env.imagen env (stampPromptText (Stamp.name stamp) (stampPrompt w1))
  = Reply (Some (GeneratedImage.mk (Some (Image.mk (Some bytes))) :: rest)) ->
  let w' := exec saveStampChanges (exec (generateAiStamp env) w1) in
  stamps w'
  = map (fun s => if String.eqb (Stamp.id s) (Stamp.id stamp)
                  then Stamp.mk (Stamp.id stamp) (Stamp.name stamp) (Stamp.rotation stamp)
                         (Stamp.color stamp) (Stamp.date stamp) (Stamp.time stamp)
                         (Some ("data:image/jpeg;base64," +++ bytes))
                         (Some (stampPrompt w1)) (Stamp.selected stamp)
                  else s) (stamps w)
  /\ editingStamp w' = None /\ isGeneratingStamp w' = false /\ alerts w' = alerts w.
Proof.
  intros w1 Himg w'. subst w'.
  assert (Hp : nonEmpty (stampPrompt w1) = true).
  { unfold w1, openStampEditor. run_handler. cbn [stampPrompt set_stampPrompt].
    destruct (Stamp.description stamp) as [[|c d]|]; reflexivity. }
  assert (He : editingStamp w1 = Some stamp).
  { unfold w1, openStampEditor. run_handler. cbn. now rewrite copyStamp_id. }
  assert (Hs : stamps w1 = stamps w) by reflexivity.
  assert (Ha : alerts w1 = alerts w) by reflexivity.
  clearbody w1.
  unfold saveStampChanges, generateAiStamp, generateStampImage, closeStampEditor.
  run_handler. rewrite He, Hp. cbn [negb]. rewrite Himg.
  cbn. rewrite Hs, Ha. repeat split.
Qed.

Lemma edit_generate_save_witness :
  map Stamp.imageUrl
    (stamps (exec saveStampChanges
               (exec (generateAiStamp Demo.drawing)
                  (exec (openStampEditor (nth 0 (stamps Sample.generated) Demo.noStamp))
                     Sample.generated))))
  = [Some "data:image/jpeg;base64,R0lGODlh"; None].
Proof.
  rewrite (proj1 (edit_generate_save Demo.drawing Sample.generated
                    (nth 0 (stamps Sample.generated) Demo.noStamp)
                    "R0lGODlh" [] eq_refl)).
  reflexivity.
Defined.

(** X13: when the image service fails, [generateAiStamp] returns after
    one alert; the stamp in the editor and the stamps of the route are
    as before and the busy flag is reset. *)
Theorem generateAiStamp_failure_keeps_stamp env w current e :
  editingStamp w = Some current ->
  nonEmpty (stampPrompt w) = true ->
  (forall w0, generateStampImage env (Stamp.name current) (stampPrompt w) w0
              = (Thrown e, w0)) ->
  exists w',
    generateAiStamp env w = (Returned tt, w')
    /\ editingStamp w' = Some current
    /\ stamps w' = stamps w
    /\ alerts w' = alerts w ++ ["Failed to generate stamp. Quota may be exceeded."]
    /\ isGeneratingStamp w' = false.
Proof.
  intros Hcur Hprompt Hfail. unfold generateAiStamp. run_handler.
  rewrite Hcur, Hprompt. cbn [negb]. rewrite Hfail.
  eexists. split; [reflexivity|]. cbn. rewrite Hcur. repeat split.
Qed.

Lemma generateAiStamp_failure_keeps_stamp_witness :
  let w := exec (openStampEditor (nth 0 (stamps Sample.generated) Demo.noStamp))
             Sample.generated in
  exists w',
    generateAiStamp Demo.failing w = (Returned tt, w')
    /\ editingStamp w' = editingStamp w.
Proof.
  intros w.
  destruct (generateAiStamp_failure_keeps_stamp Demo.failing w
              (nth 0 (stamps Sample.generated) Demo.noStamp) Sample.quotaError
              eq_refl eq_refl (fun w0 => eq_refl))
    as (w' & Hrun & Hed & _).
  exists w'. split; [exact Hrun | exact Hed].
Defined.

Lemma generateAiStamp_stamps env w : stamps (exec (generateAiStamp env) w) = stamps w.
Proof.
  unfold generateAiStamp, generateStampImage. run_handler.
  destruct (editingStamp w) as [current|]; [|reflexivity].
  destruct (nonEmpty (stampPrompt w)); [|reflexivity]. cbn [negb].
  destruct (Env.imagen env _) as [e|images]; [reflexivity|].
  unfold firstImageUrl. run_handler.
  destruct images as [[|first rest]|]; try reflexivity.
  destruct (GeneratedImage.image first) as [img|]; try reflexivity.
  destruct (Image.imageBytes img); reflexivity.
Qed.

(** X14: edits stay in the editor.  Opening the editor, generating or
    uploading an image, reverting the style and closing the editor never
    change the stamps of the route; only [saveStampChanges] does.
    Reverting after an upload leaves the edited stamp without an image
    and otherwise as it was. *)
Theorem editor_leaves_stamps_alone env w stamp result :
  stamps (exec (openStampEditor stamp) w) = stamps w
  /\ stamps (exec (generateAiStamp env) w) = stamps w
  /\ stamps (exec (onUploadStampImage_onload result) w) = stamps w
  /\ stamps (exec revertStampStyle w) = stamps w
  /\ stamps (exec closeStampEditor w) = stamps w
  /\ editingStamp (exec revertStampStyle (exec (onUploadStampImage_onload result) w))
     = option_map (withImageUrl None) (editingStamp w).
Proof.
  split; [reflexivity|]. split; [apply generateAiStamp_stamps|].
  unfold onUploadStampImage_onload, revertStampStyle, closeStampEditor. run_handler.
  destruct (editingStamp w) as [current|] eqn:E; cbn; rewrite ?E; repeat split.
Qed.

(** ** Uploading an icon *)

Lemma startsWith_skip p s :
  startsWith p s = true -> s = p +++ skip (String.length p) s.
Proof.
  revert s. induction p as [|a p IH]; intros s; [reflexivity|].
  destruct s as [|b s]; [discriminate|]. cbn [startsWith String.length skip append].
  intros H. apply andb_true_iff in H. destruct H as [Hab Hp].
  apply Ascii.eqb_eq in Hab. subst b. f_equal. now apply IH.
Qed.

Lemma splitLast_sound sep s before after :
  splitLast sep s = Some (before, after) ->
  s = before +++ sep +++ after /\ nonEmpty after = true.
Proof.
  revert before. induction s as [|c s IH]; intros before; [discriminate|].
  cbn [splitLast]. destruct (splitLast sep s) as [[b0 a0]|].
  - intros H. inversion H; subst. destruct (IH b0 eq_refl) as [-> Hne].
    split; [reflexivity|exact Hne].
  - destruct (startsWith sep (String c s)) eqn:Hs; [|discriminate].
    destruct (nonEmpty (skip (String.length sep) (String c s))) eqn:Hne; [|discriminate].
    cbn [andb]. intros H. inversion H; subst. split; [|exact Hne].
    now apply startsWith_skip.
Qed.

Lemma matchDataUrl_splits_the_url_aux base64Full mimeType base64Data :
  matchDataUrl base64Full = Some (mimeType, base64Data) ->
  base64Full = "data:" +++ mimeType +++ ";base64," +++ base64Data
  /\ nonEmpty mimeType = true /\ nonEmpty base64Data = true.
Proof.
  unfold matchDataUrl.
  destruct (startsWith "data:" base64Full) eqn:Hd; [|discriminate].
  destruct (noLineTerminator base64Full); [|discriminate]. cbn [andb].
  destruct (splitLast ";base64," (skip 5 base64Full)) as [[m d]|] eqn:Hs; [|discriminate].
  destruct (nonEmpty m) eqn:Hm; [|discriminate].
  intros H. inversion H; subst.
  destruct (splitLast_sound _ _ _ _ Hs) as [Heq Hne].
  split; [|split; assumption].
  rewrite (startsWith_skip _ _ Hd). cbn [String.length]. now rewrite Heq.
Qed.

(** X15: when the regular expression of [onUploadIcon] matches, the two
    groups are not empty and the data URL is [data:], the first group,
    [;base64,] and the second group, in that order: nothing of the
    file's URL is lost. *)
Theorem matchDataUrl_splits_the_url base64Full mimeType base64Data :
  matchDataUrl base64Full = Some (mimeType, base64Data) ->
  base64Full = "data:" +++ mimeType +++ ";base64," +++ base64Data
  /\ nonEmpty mimeType = true /\ nonEmpty base64Data = true.
Proof.
  intros Hmatch. unfold matchDataUrl in Hmatch.
  destruct (startsWith "data:" base64Full) eqn:Hdata; [|discriminate Hmatch].
  destruct (noLineTerminator base64Full); [|discriminate Hmatch].
  cbn [andb] in Hmatch.
  destruct (splitLast ";base64," (skip 5 base64Full)) as [[m d]|] eqn:Hsplit;
    [|discriminate Hmatch].
  destruct (nonEmpty m) eqn:Hm; [|discriminate Hmatch].
  inversion Hmatch; subst m d.
  destruct (splitLast_sound _ _ _ _ Hsplit) as [Hrest Hpayload].
  repeat split; try assumption.
  rewrite (startsWith_skip _ _ Hdata). cbn [String.length]. now rewrite Hrest.
Qed.

Lemma matchDataUrl_splits_the_url_witness :
  "data:image/png;base64,iVBORw0KGgo=" = "data:" +++ "image/png" +++ ";base64," +++ "iVBORw0KGgo=".
Proof.
  exact (proj1 (matchDataUrl_splits_the_url "data:image/png;base64,iVBORw0KGgo="
                  "image/png" "iVBORw0KGgo=" eq_refl)).
Defined.

Lemma splitLast_without_head a sep s :
  ~ In a (chars s) -> splitLast (String a sep) s = None.
Proof.
  unfold chars. induction s as [|c s IH]; [reflexivity|].
  cbn [list_ascii_of_string In]. intros H. cbn [splitLast].
  rewrite IH by (intros Hin; apply H; now right).
  cbn [startsWith]. destruct (Ascii.eqb a c) eqn:E; [|reflexivity].
  apply Ascii.eqb_eq in E. exfalso. apply H. left. now symmetry.
Qed.

Lemma startsWith_app p s : startsWith p (p +++ s) = true.
Proof.
  induction p as [|a p IH]; [reflexivity|]. cbn. now rewrite Ascii.eqb_refl, IH.
Qed.

Lemma skip_app p s : skip (String.length p) (p +++ s) = s.
Proof. induction p as [|a p IH]; [now destruct s|]. exact IH. Qed.

Lemma splitLast_app a sep m d :
  ~ In a (chars (sep +++ d)) -> nonEmpty d = true ->
  splitLast (String a sep) (m +++ String a sep +++ d) = Some (m, d).
Proof.
  intros Hno Hd. induction m as [|c m IH].
  - change (EmptyString +++ String a sep +++ d) with (String a (sep +++ d)).
    cbn [splitLast]. rewrite (splitLast_without_head a sep _ Hno).
    change (String a (sep +++ d)) with (String a sep +++ d).
    now rewrite startsWith_app, skip_app, Hd.
  - change (String c m +++ String a sep +++ d) with (String c (m +++ String a sep +++ d)).
    cbn [splitLast]. now rewrite IH.
Qed.

Lemma noLineTerminator_app a b :
  noLineTerminator (a +++ b) = noLineTerminator a && noLineTerminator b.
Proof.
  induction a as [|c a IH]; [reflexivity|]. cbn [append noLineTerminator].
  now rewrite IH, andb_assoc.
Qed.

(** X16: a data URL made of a mime type and a payload, both non-empty
    and on one line, the payload without a semicolon (as Base64 is), is
    matched by the regular expression of [onUploadIcon], and the groups
    are that mime type and that payload. *)
Theorem matchDataUrl_accepts_base64_urls mimeType base64Data :
  nonEmpty mimeType = true -> nonEmpty base64Data = true ->
  noLineTerminator mimeType = true -> noLineTerminator base64Data = true ->
  ~ In ";"%char (chars base64Data) ->
  matchDataUrl ("data:" +++ mimeType +++ ";base64," +++ base64Data)
  = Some (mimeType, base64Data).
Proof.
  intros Hm Hd Lm Ld Hsemi. unfold matchDataUrl.
  rewrite startsWith_app, !noLineTerminator_app, Lm, Ld. cbn [noLineTerminator andb].
  change (skip 5 ("data:" +++ mimeType +++ ";base64," +++ base64Data))
    with (mimeType +++ ";base64," +++ base64Data).
  rewrite splitLast_app, Hm; [reflexivity| |exact Hd].
  cbn. intros H. repeat (destruct H as [H|H]; [discriminate H|]). exact (Hsemi H).
Qed.

Lemma matchDataUrl_accepts_base64_urls_witness :
  matchDataUrl ("data:" +++ "image/svg+xml;charset=utf-8" +++ ";base64," +++ "PHN2Zz4=")
  = Some ("image/svg+xml;charset=utf-8", "PHN2Zz4=").
Proof.
  apply matchDataUrl_accepts_base64_urls; try reflexivity.
  cbn. intros H. repeat (destruct H as [H|H]; [discriminate H|]). exact H.
Defined.

Lemma generateCustomIcon_run env base64Image mimeType w :
  exists url,
    generateCustomIcon env base64Image mimeType w = (Returned url, w)
    /\ (forall e w', generateCustomIcon_try env base64Image mimeType w = (Thrown e, w') ->
          url = "data:" +++ mimeType +++ ";base64," +++ base64Image).
Proof.
  destruct (generateCustomIcon_try_world env base64Image mimeType w) as [Hw Hs].
  unfold generateCustomIcon, tryCatch.
  destruct (generateCustomIcon_try env base64Image mimeType w) as [[url|e|] w1];
    cbn [fst snd] in Hw, Hs; subst w1.
  - exists url. split; [reflexivity|]. intros e w' H. discriminate H.
  - eexists. split; [reflexivity|]. reflexivity.
  - now elim Hs.
Qed.

Lemma runNext_first env w task rest :
  timers w = task :: rest -> runNext env w = exec (runTask env task) (set_timers rest w).
Proof. intros H. unfold runNext. now rewrite H. Qed.

Lemma onUploadIcon_onload_run env base64Full mimeType base64Data w :
  matchDataUrl base64Full = Some (mimeType, base64Data) ->
  exists url,
    onUploadIcon_onload env base64Full w
    = (Returned tt,
       set_isGeneratingIcon false
         (set_statusMessage "Custom icon applied!" (set_customIconUrl (Some url) w)))
    /\ (forall e w', generateCustomIcon_try env base64Data mimeType w = (Thrown e, w') ->
          url = base64Full).
Proof.
  intros Hmatch.
  destruct (matchDataUrl_splits_the_url_aux _ _ _ Hmatch) as [Hfull _].
  destruct (generateCustomIcon_run env base64Data mimeType w) as (url & Hrun & Hfall).
  exists url. split.
  - unfold onUploadIcon_onload. rewrite Hmatch. run_handler. now rewrite Hrun.
  - intros e w' H. rewrite Hfull. exact (Hfall e w' H).
Qed.

(** X17: an upload that goes through.  For a file within the size limit
    whose data URL matches, the handler sets [isGeneratingIcon] and the
    [onload] callback always clears it: the callback returns, the status
    says the icon was applied, and the custom icon is set; when the
    analysis call or the generation call fails, the icon is the uploaded
    file's own data URL, unchanged. *)
Theorem onUploadIcon_applies_an_icon env w file base64Full mimeType base64Data :
  (File.size file <= 5 * 1024 * 1024)%N ->
  File.dataURL file = Some base64Full ->
  matchDataUrl base64Full = Some (mimeType, base64Data) ->
  timers w = [] ->
  let w1 := exec (onUploadIcon [file]) w in
  let w' := runNext env w1 in
  isGeneratingIcon w1 = true
  /\ isGeneratingIcon w' = false
  /\ timers w' = []
  /\ statusMessage w' = "Custom icon applied!"
  /\ (exists url, customIconUrl w' = Some url)
  /\ (forall e, Env.analyze env mimeType base64Data = ReplyError e ->
        customIconUrl w' = Some base64Full)
  /\ (forall t e, Env.analyze env mimeType base64Data = Reply (Some t) ->
        Env.imagen env (iconPrompt (trim t)) = ReplyError e ->
        customIconUrl w' = Some base64Full).
Proof.
  intros Hsize Hurl Hmatch Htimers w1 w'.
  assert (Hw1 : w1 = set_timers [IconReaderOnload file]
                       (set_statusMessage "Designing your custom icon..."
                          (set_isGeneratingIcon true w))).
  { unfold w1, onUploadIcon. run_handler.
    apply N.ltb_ge in Hsize. rewrite Hsize.
    change (timers (set_statusMessage "Designing your custom icon..."
                      (set_isGeneratingIcon true w))) with (timers w).
    rewrite Htimers. reflexivity. }
  destruct (onUploadIcon_onload_run env base64Full mimeType base64Data
              (set_timers [] w1) Hmatch) as (url & Hrun & Hfall).
  assert (Hw' : w' = set_isGeneratingIcon false
                       (set_statusMessage "Custom icon applied!"
                          (set_customIconUrl (Some url) (set_timers [] w1)))).
  { assert (Ht1 : timers w1 = [IconReaderOnload file]) by (rewrite Hw1; reflexivity).
    unfold w'. rewrite (runNext_first env w1 _ _ Ht1).
    unfold runTask, exec. now rewrite Hurl, Hrun. }
  rewrite Hw'. split; [rewrite Hw1; reflexivity|]. repeat split.
  - now exists url.
  - intros e He. cbn. f_equal. apply (Hfall e (set_timers [] w1)).
    unfold generateCustomIcon_try. run_handler. now rewrite He.
  - intros t e Ht He. cbn. f_equal. apply (Hfall e (set_timers [] w1)).
    unfold generateCustomIcon_try. run_handler. now rewrite Ht, He.
Qed.

Lemma onUploadIcon_applies_an_icon_witness :
  customIconUrl
    (runNext Demo.failing
       (exec (onUploadIcon [File.mk 2048 (Some "data:image/png;base64,iVBORw0KGgo=") None])
          Sample.generated))
  = Some "data:image/png;base64,iVBORw0KGgo=".
Proof.
  destruct (onUploadIcon_applies_an_icon Demo.failing Sample.generated
              (File.mk 2048 (Some "data:image/png;base64,iVBORw0KGgo=") None)
              "data:image/png;base64,iVBORw0KGgo=" "image/png" "iVBORw0KGgo=")
    as (_ & _ & _ & _ & _ & Hfail & _).
  - vm_compute. discriminate.
  - reflexivity.
  - reflexivity.
  - reflexivity.
  - exact (Hfail Sample.quotaError eq_refl).
Defined.

(** X18: [onUploadIcon] with no file does nothing, and with a file over
    5 MB it only shows an alert: the busy flag is not set, no reader is
    started and the icon is untouched. *)
Theorem onUploadIcon_refuses_large_files w file rest :
  (5 * 1024 * 1024 < File.size file)%N ->
  onUploadIcon [] w = (Returned tt, w)
  /\ onUploadIcon (file :: rest) w
     = (Returned tt,
        set_alerts (alerts w ++ ["File is too large. Please upload an image under 5MB."]) w).
Proof.
  intros H. split; [reflexivity|]. unfold onUploadIcon. run_handler.
  apply N.ltb_lt in H. now rewrite H.
Qed.

Lemma onUploadIcon_refuses_large_files_witness :
  isGeneratingIcon
    (exec (onUploadIcon [File.mk 6000000 (Some "data:image/png;base64,iVBORw0KGgo=") None])
       Sample.generated) = false.
Proof.
  unfold exec.
  rewrite (proj2 (onUploadIcon_refuses_large_files Sample.generated
                    (File.mk 6000000 (Some "data:image/png;base64,iVBORw0KGgo=") None) []
                    eq_refl)).
  reflexivity.
Defined.

(** ** The trip library: saving, importing, ids *)

Lemma loadTrip_run trip w :
  loadTrip trip w = (Returned tt, exec (loadTrip trip) w)
  /\ savedTrips (exec (loadTrip trip) w) = savedTrips w
  /\ localStorage (exec (loadTrip trip) w) = localStorage w
  /\ alerts (exec (loadTrip trip) w) = alerts w
  /\ timers (exec (loadTrip trip) w) = timers w ++ [LoadTripTimeout trip]
  /\ idsDrawn (exec (loadTrip trip) w) = idsDrawn w
  /\ locationInput (exec (loadTrip trip) w) = SavedTrip.locations trip.
Proof.
  unfold loadTrip. run_handler. destruct (SavedTrip.styleConfig trip); repeat split.
Qed.

(** What the [onload] callback of [onImportTrip] does with a document
    that passes the test and reads as a trip. *)
Lemma onImportTrip_onload_accepted env w file doc parsed :
  File.json file = Some doc ->
  invalidFormat doc = Ok false ->
  asSavedTrip doc = Some parsed ->
  let collides := existsb (fun t => String.eqb (SavedTrip.id t) (SavedTrip.id parsed))
                    (savedTrips w) in
  let trip := if collides then withId (Env.newId env (idsDrawn w)) parsed else parsed in
  let w1 := exec (loadTrip trip)
              (if collides then set_idsDrawn (S (idsDrawn w)) w else w) in
  onImportTrip_onload env file w
  = (Returned tt,
     if Env.storageFits env (trip :: savedTrips w)
     then set_savedTrips (trip :: savedTrips w)
            (set_localStorage (Some (trip :: savedTrips w)) w1)
     else set_alerts (alerts w1 ++ ["Trip loaded! (Storage full - not added to History list)"]) w1).
Proof.
  intros Hjson Hvalid Hparsed collides trip w1.
  unfold onImportTrip_onload, tryCatch at 1, bind at 1. rewrite Hjson, Hvalid.
  cbn [liftRes ret]. rewrite Hparsed.
  unfold bind at 1, gets at 1. fold collides.
  unfold bind at 1.
  assert (Hpick : (if collides
                   then id <- generateId env;; ret (withId id parsed)
                   else ret parsed) w
                  = (Returned trip, if collides then set_idsDrawn (S (idsDrawn w)) w else w)).
  { unfold trip. destruct collides; reflexivity. }
  rewrite Hpick. unfold bind at 1.
  destruct (loadTrip_run trip (if collides then set_idsDrawn (S (idsDrawn w)) w else w))
    as (Hrun & Hsaved & _ & _).
  rewrite Hrun. fold w1 in Hsaved |- *.
  assert (Hs : savedTrips w1 = savedTrips w).
  { rewrite Hsaved. destruct collides; reflexivity. }
  unfold persistTrips. run_handler. rewrite Hs.
  destruct (Env.storageFits env (trip :: savedTrips w)); reflexivity.
Qed.

Lemma asCoordinate_coordinateJson c : asCoordinate (coordinateJson c) = Some c.
Proof. destruct c; reflexivity. Qed.

Lemma asStamp_stampJson s : asStamp (stampJson s) = Some s.
Proof. destruct s as [? ? ? ? ? ? [u|] [d|] ?]; reflexivity. Qed.

Lemma allSome_map {A} (f : A -> JsValue) (g : JsValue -> option A) (l : list A) :
  (forall a, g (f a) = Some a) -> allSome (map g (map f l)) = Some l.
Proof.
  intros H. induction l as [|a l IH]; [reflexivity|].
  cbn [map allSome]. now rewrite H, IH.
Qed.

Lemma asStyleConfig_styleConfigJson cfg :
  asStyleConfig (styleConfigJson cfg) = Some (Some cfg).
Proof. destruct cfg as [? ? ? [u|] [[| |]|]]; reflexivity. Qed.

Lemma asCoordinates_coordinatesJson c : asCoordinates (coordinatesJson c) = Some c.
Proof.
  destruct c as [items|[b|x|s|props]]; try reflexivity.
  cbn [coordinatesJson asCoordinates].
  now rewrite (allSome_map coordinateJson asCoordinate items asCoordinate_coordinateJson).
Qed.

Lemma asSavedTrip_tripJson trip : asSavedTrip (tripJson trip) = Some trip.
Proof.
  destruct trip as [id name date locations coordinates stamps [cfg|]];
    unfold tripJson, asSavedTrip;
    cbn [SavedTrip.id SavedTrip.name SavedTrip.date SavedTrip.locations
         SavedTrip.coordinates SavedTrip.stamps SavedTrip.styleConfig
         option_map optProp app lookupProp String.eqb Ascii.eqb Bool.eqb
         asString asNumber optBind asStamps];
    rewrite asCoordinates_coordinatesJson;
    rewrite (allSome_map stampJson asStamp stamps asStamp_stampJson);
    cbn [optBind]; rewrite ?asStyleConfig_styleConfigJson; reflexivity.
Qed.

Lemma invalidFormat_tripJson trip items :
  SavedTrip.coordinates trip = CoordArray items -> invalidFormat (tripJson trip) = Ok false.
Proof.
  intros H. unfold tripJson. rewrite invalidFormat_truthy_coordinates; [reflexivity| |].
  - cbn. now rewrite H.
  - reflexivity.
Qed.

Lemma loadTrip_timeout_array trip items w :
  SavedTrip.coordinates trip = CoordArray items ->
  routeCoordinates (exec (loadTrip_timeout trip) w) = items
  /\ stamps (exec (loadTrip_timeout trip) w) = SavedTrip.stamps trip
  /\ missingLocations (exec (loadTrip_timeout trip) w) = []
  /\ locationInput (exec (loadTrip_timeout trip) w) = locationInput w.
Proof.
  intros H. unfold loadTrip_timeout. rewrite H. run_handler. cbn.
  now rewrite map_copyCoordinate, map_copyStamp.
Qed.

(** X20: importing a file that [downloadTripData] wrote for a trip whose
    numbers are all finite (the numbers of the model), when the store
    takes the longer list.  The trip is added at the head of the list in
    memory and in the store, with its own id, or with a newly generated
    one when a saved trip already has that id; nothing else of it
    changes; no alert is shown; and once the callback of [loadTrip] has
    run, the route and the stamps are those of the exported trip, the
    missing list is empty and the input is the trip's text. *)
Theorem import_of_exported_trip env w file trip items :
  SavedTrip.coordinates trip = CoordArray items ->
  File.json file = Some (tripJson trip) ->
  let collides := existsb (fun t => String.eqb (SavedTrip.id t) (SavedTrip.id trip))
                    (savedTrips w) in
  let imported := if collides then withId (Env.newId env (idsDrawn w)) trip else trip in
  Env.storageFits env (imported :: savedTrips w) = true ->
  exists w',
    onImportTrip_onload env file w = (Returned tt, w')
    /\ savedTrips w' = imported :: savedTrips w
    /\ localStorage w' = Some (imported :: savedTrips w)
    /\ alerts w' = alerts w
    /\ timers w' = timers w ++ [LoadTripTimeout imported]
    /\ withId (SavedTrip.id trip) imported = trip
    /\ let w'' := exec (runTask env (LoadTripTimeout imported)) w' in
       routeCoordinates w'' = items
       /\ stamps w'' = SavedTrip.stamps trip
       /\ missingLocations w'' = []
       /\ locationInput w'' = SavedTrip.locations trip.
Proof.
  intros Hcoords Hjson collides imported Hfits.
  pose proof (onImportTrip_onload_accepted env w file (tripJson trip) trip Hjson
                (invalidFormat_tripJson trip items Hcoords) (asSavedTrip_tripJson trip))
    as Hrun.
  cbv zeta in Hrun. fold collides in Hrun. fold imported in Hrun. rewrite Hfits in Hrun.
  eexists. split; [exact Hrun|].
  destruct (loadTrip_run imported (if collides then set_idsDrawn (S (idsDrawn w)) w else w))
    as (_ & _ & _ & Ha & Ht & _ & Hl).
  assert (Hc : SavedTrip.coordinates imported = CoordArray items)
    by (unfold imported; destruct collides; exact Hcoords).
  assert (Hs : SavedTrip.stamps imported = SavedTrip.stamps trip)
    by (unfold imported; destruct collides; reflexivity).
  assert (Hloc : SavedTrip.locations imported = SavedTrip.locations trip)
    by (unfold imported; destruct collides; reflexivity).
  split; [reflexivity|]. split; [reflexivity|].
  split; [cbn [alerts set_savedTrips set_localStorage]; rewrite Ha; destruct collides; reflexivity|].
  split; [cbn [timers set_savedTrips set_localStorage]; rewrite Ht; destruct collides; reflexivity|].
  split; [unfold imported; destruct collides, trip; reflexivity|].
  cbv zeta. unfold runTask.
  destruct (loadTrip_timeout_array imported items
              (set_savedTrips (imported :: savedTrips w)
                 (set_localStorage (Some (imported :: savedTrips w))
                    (exec (loadTrip imported)
                       (if collides then set_idsDrawn (S (idsDrawn w)) w else w))))
              Hc)
    as (H1 & H2 & H3 & H4).
  rewrite H1, H2, H3, H4, Hs.
  cbn [locationInput set_savedTrips set_localStorage]. rewrite Hl, Hloc. repeat split.
Qed.

Lemma import_of_exported_trip_witness :
  exists w',
    onImportTrip_onload (Sample.env Sample.route 5)
      (Sample.importFile (tripJson Sample.old)) (Sample.withLibrary Sample.generated)
    = (Returned tt, w')
    /\ map SavedTrip.id (savedTrips w') = ["id2"; "old"]
    /\ routeCoordinates
         (exec (runTask (Sample.env Sample.route 5)
                  (LoadTripTimeout (withId "id2" Sample.old))) w')
       = [ValidCoordinate.mk "Oslo" (59.9139)%Q (10.7522)%Q].
Proof.
  destruct (import_of_exported_trip (Sample.env Sample.route 5)
              (Sample.withLibrary Sample.generated)
              (Sample.importFile (tripJson Sample.old)) Sample.old
              [ValidCoordinate.mk "Oslo" (59.9139)%Q (10.7522)%Q]
              eq_refl eq_refl eq_refl)
    as (w' & Hrun & Hsaved & _ & _ & _ & _ & Hroute & _).
  exists w'. split; [exact Hrun|]. split.
  - rewrite Hsaved. reflexivity.
  - exact Hroute.
Defined.

(** X21: importing when the store is full.  A document that passes the
    test is still loaded into the view, but it is not added to the list
    of saved trips, the store is left as it was, and one alert says so. *)
Theorem import_with_full_storage env w file doc parsed :
  File.json file = Some doc ->
  invalidFormat doc = Ok false ->
  asSavedTrip doc = Some parsed ->
  (forall trip, Env.storageFits env (trip :: savedTrips w) = false) ->
  exists w' trip,
    onImportTrip_onload env file w = (Returned tt, w')
    /\ savedTrips w' = savedTrips w
    /\ localStorage w' = localStorage w
    /\ alerts w' = alerts w ++ ["Trip loaded! (Storage full - not added to History list)"]
    /\ timers w' = timers w ++ [LoadTripTimeout trip]
    /\ withId (SavedTrip.id parsed) trip = parsed
    /\ locationInput w' = SavedTrip.locations parsed.
Proof.
  intros Hjson Hvalid Hparsed Hfull.
  pose proof (onImportTrip_onload_accepted env w file doc parsed Hjson Hvalid Hparsed) as Hrun.
  cbv zeta in Hrun. rewrite Hfull in Hrun.
  set (collides := existsb _ (savedTrips w)) in Hrun.
  set (trip := if collides then _ else parsed) in Hrun.
  destruct (loadTrip_run trip (if collides then set_idsDrawn (S (idsDrawn w)) w else w))
    as (_ & Hs & Hst & Ha & Ht & _ & Hl).
  eexists. exists trip. split; [exact Hrun|].
  cbn [savedTrips localStorage alerts timers locationInput set_alerts].
  rewrite Hs, Hst, Ha, Ht, Hl.
  repeat split; unfold trip; destruct collides; try reflexivity; now destruct parsed.
Qed.

Lemma import_with_full_storage_witness :
  exists w' trip,
    onImportTrip_onload (Sample.env Sample.route 0)
      (Sample.importFile (tripJson Sample.old)) Sample.generated
    = (Returned tt, w')
    /\ savedTrips w' = []
    /\ timers w' = [LoadTripTimeout trip].
Proof.
  destruct (import_with_full_storage (Sample.env Sample.route 0) Sample.generated
              (Sample.importFile (tripJson Sample.old)) (tripJson Sample.old) Sample.old
              eq_refl eq_refl eq_refl (fun trip => eq_refl))
    as (w' & trip & Hrun & Hsaved & _ & _ & Ht & _).
  exists w', trip. split; [exact Hrun|]. split; [exact Hsaved | exact Ht].
Defined.



Lemma existsb_id_false (l : list SavedTrip.t) id :
  existsb (fun t => String.eqb (SavedTrip.id t) id) l = false ->
  ~ In id (map SavedTrip.id l).
Proof.
  intros H Hin. apply in_map_iff in Hin. destruct Hin as (t & Ht & Hl).
  assert (E : existsb (fun t => String.eqb (SavedTrip.id t) id) l = true).
  { apply existsb_exists. exists t. split; [exact Hl|]. now apply String.eqb_eq. }
  congruence.
Qed.

Lemma NoDup_filter_ids (f : SavedTrip.t -> bool) (l : list SavedTrip.t) :
  NoDup (map SavedTrip.id l) -> NoDup (map SavedTrip.id (filter f l)).
Proof.
  induction l as [|t l IH]; cbn [map filter]; [auto|].
  intros H. inversion H as [|? ? Hx Hl]; subst.
  destruct (f t); cbn [map]; [|now apply IH].
  constructor; [|now apply IH].
  intros Hin. apply Hx. apply in_map_iff in Hin. destruct Hin as (u & Hu & Hf).
  apply filter_In in Hf. apply in_map_iff. exists u. tauto.
Qed.

Lemma onImportTrip_onload_savedTrips env w file :
  savedTrips (exec (onImportTrip_onload env file) w) = savedTrips w
  \/ exists parsed,
       savedTrips (exec (onImportTrip_onload env file) w)
       = (if existsb (fun t => String.eqb (SavedTrip.id t) (SavedTrip.id parsed))
               (savedTrips w)
          then withId (Env.newId env (idsDrawn w)) parsed else parsed)
         :: savedTrips w.
Proof.
  destruct (File.json file) as [doc|] eqn:Hjson.
  - destruct (invalidFormat doc) as [[|]|e] eqn:Hvalid.
    + left. unfold onImportTrip_onload. run_handler. now rewrite Hjson, Hvalid.
    + destruct (asSavedTrip doc) as [parsed|] eqn:Hparsed.
      * pose proof (onImportTrip_onload_accepted env w file doc parsed Hjson Hvalid Hparsed)
          as Hrun.
        cbv zeta in Hrun. unfold exec. rewrite Hrun.
        destruct (Env.storageFits env _).
        -- right. exists parsed. reflexivity.
        -- left. cbn [snd savedTrips set_alerts].
           destruct (loadTrip_run
                       (if existsb (fun t => String.eqb (SavedTrip.id t) (SavedTrip.id parsed))
                             (savedTrips w)
                        then withId (Env.newId env (idsDrawn w)) parsed else parsed)
                       (if existsb (fun t => String.eqb (SavedTrip.id t) (SavedTrip.id parsed))
                             (savedTrips w)
                        then set_idsDrawn (S (idsDrawn w)) w else w))
             as (_ & Hs & _).
           rewrite Hs. now destruct (existsb _ _).
      * left. unfold onImportTrip_onload. run_handler.
        now rewrite Hjson, Hvalid, Hparsed.
    + left. unfold onImportTrip_onload. run_handler. now rewrite Hjson, Hvalid.
  - left. unfold onImportTrip_onload. run_handler. now rewrite Hjson.
Qed.

(** X23: the ids in the list of saved trips stay pairwise distinct.  If
    they are distinct and the next id of [generateId] is not among them,
    they are still distinct after [saveTrip], after [confirmDeleteTrip]
    and after an import, whatever the file holds: an imported trip
    whose id is taken gets the new id. *)
Theorem library_ids_stay_distinct env w file :
  NoDup (map SavedTrip.id (savedTrips w)) ->
  ~ In (Env.newId env (idsDrawn w)) (map SavedTrip.id (savedTrips w)) ->
  NoDup (map SavedTrip.id (savedTrips (exec (saveTrip env) w)))
  /\ NoDup (map SavedTrip.id (savedTrips (exec (confirmDeleteTrip env) w)))
  /\ NoDup (map SavedTrip.id (savedTrips (exec (onImportTrip_onload env file) w))).
Proof.
  intros Hnd Hfresh. split; [|split].
  - destruct (routeCoordinates w) as [|first rest] eqn:Hroute.
    + unfold saveTrip. run_handler. now rewrite Hroute.
    + pose proof (saveTrip_run env w first rest Hroute) as Hrun. cbv zeta in Hrun.
      unfold exec. rewrite Hrun.
      destruct (Env.storageFits env _); cbn; now constructor.
  - unfold confirmDeleteTrip, persistTrips. run_handler.
    destruct (tripToDelete w) as [id|]; [|exact Hnd].
    destruct (nonEmpty id); cbn [negb]; [|exact Hnd].
    destruct (Env.storageFits env _); cbn; now apply NoDup_filter_ids.
  - destruct (onImportTrip_onload_savedTrips env w file) as [->|[parsed ->]]; [exact Hnd|].
    destruct (existsb _ (savedTrips w)) eqn:E; cbn [map]; constructor; try assumption.
    now apply existsb_id_false.
Qed.

Lemma library_ids_stay_distinct_witness :
  NoDup (map SavedTrip.id
           (savedTrips (exec (onImportTrip_onload (Sample.env Sample.route 5)
                                (Sample.importFile (tripJson Sample.old)))
                          (Sample.withLibrary Sample.generated)))).
Proof.
  refine (proj2 (proj2 (library_ids_stay_distinct (Sample.env Sample.route 5)
                          (Sample.withLibrary Sample.generated)
                          (Sample.importFile (tripJson Sample.old)) _ _))).
  - vm_compute. repeat constructor; simpl; intros H;
      repeat (destruct H as [H|H]; [discriminate H|]); exact H.
  - vm_compute. intros H. repeat (destruct H as [H|H]; [discriminate H|]). exact H.
Defined.

(** ** Start-up *)

Lemma set_idsDrawn_same w : set_idsDrawn (idsDrawn w) w = w.
Proof. apply world_eta. Qed.

Lemma withId_own t : withId (SavedTrip.id t) t = t.
Proof. destruct t; reflexivity. Qed.

Lemma sanitizeTrip_run env showNumber entry w :
  repairable (fst entry) ->
  exists t k,
    sanitizeTrip env showNumber entry w
    = (Returned (t, needsRepair (fst entry)), set_idsDrawn (idsDrawn w + k) w)
    /\ repaired env showNumber entry t
    /\ (needsRepair (fst entry) = false -> k = 0).
Proof.
  destruct entry as [id t0]. cbn [fst snd]. intros Hrep. unfold sanitizeTrip.
  destruct (truthy id) eqn:Htruthy; cbn [negb].
  - destruct Hrep as [H|[[x ->]|[s ->]]]; [congruence| |].
    + exists (withId (showNumber x) t0), 0. rewrite Nat.add_0_r, set_idsDrawn_same.
      split; [reflexivity|]. split; [|reflexivity].
      unfold repaired. cbn [fst snd]. repeat split.
      * intros s H. discriminate H.
      * intros y H _. now inversion H.
      * intros H. cbn [truthy] in H, Htruthy. congruence.
    + exists (withId s t0), 0. rewrite Nat.add_0_r, set_idsDrawn_same.
      cbn [truthy] in Htruthy. cbn [needsRepair]. rewrite Htruthy.
      split; [reflexivity|]. split; [|reflexivity].
      unfold repaired. cbn [fst snd]. repeat split.
      * intros s' H _. now inversion H.
      * intros y H. discriminate H.
      * intros H. cbn [truthy] in H. congruence.
  - exists (withId (Env.newId env (idsDrawn w)) t0), 1.
    assert (Hneeds : needsRepair id = true).
    { destruct id; try reflexivity. cbn [truthy] in Htruthy. cbn. now rewrite Htruthy. }
    rewrite Hneeds. split; [|split; [|discriminate]].
    + unfold generateId. run_handler. now rewrite Nat.add_1_r.
    + unfold repaired. cbn [fst snd]. repeat split.
      * intros s -> Hs. cbn [truthy] in Htruthy. congruence.
      * intros x -> Hx. cbn [truthy] in Htruthy. congruence.
      * intros _. now exists (idsDrawn w).
Qed.

Lemma sanitizeTrips_run env showNumber entries w :
  Forall (fun entry => repairable (fst entry)) entries ->
  exists trips k,
    sanitizeTrips env showNumber entries w
    = (Returned (trips, existsb (fun entry => needsRepair (fst entry)) entries),
       set_idsDrawn (idsDrawn w + k) w)
    /\ Forall2 (repaired env showNumber) entries trips
    /\ (existsb (fun entry => needsRepair (fst entry)) entries = false -> k = 0).
Proof.
  revert w. induction entries as [|entry rest IH]; intros w Hall.
  - exists [], 0. rewrite Nat.add_0_r, set_idsDrawn_same.
    split; [reflexivity|]. split; [constructor|reflexivity].
  - inversion Hall as [|? ? Hentry Hrest]; subst.
    destruct (sanitizeTrip_run env showNumber entry w Hentry) as (t & k & Hrun & Hrep & Hk).
    destruct (IH (set_idsDrawn (idsDrawn w + k) w) Hrest)
      as (trips & k' & Hruns & Hreps & Hk').
    exists (t :: trips), (k + k'). split; [|split; [now constructor|]].
    + cbn [sanitizeTrips existsb]. unfold bind at 1. rewrite Hrun.
      unfold bind at 1. rewrite Hruns. cbn [ret fst snd].
      cbn [idsDrawn set_idsDrawn]. now rewrite Nat.add_assoc.
    + cbn [existsb]. intros H. apply orb_false_iff in H. destruct H as [H1 H2].
      now rewrite (Hk H1), (Hk' H2).
Qed.

(** What start-up does with a stored array. *)
Lemma loadSavedTripsFrom_run env showNumber entries w :
  Forall (fun entry => repairable (fst entry)) entries ->
  exists trips k,
    Forall2 (repaired env showNumber) entries trips
    /\ (existsb (fun entry => needsRepair (fst entry)) entries = false -> k = 0)
    /\ loadSavedTripsFrom env showNumber (StoredTrips entries) w
       = (Returned tt,
          let w1 := set_savedTrips trips (set_idsDrawn (idsDrawn w + k) w) in
          if existsb (fun entry => needsRepair (fst entry)) entries
             && Env.storageFits env trips
          then set_localStorage (Some trips) w1 else w1).
Proof.
  intros Hall.
  destruct (sanitizeTrips_run env showNumber entries w Hall) as (trips & k & Hrun & Hrep & Hk).
  exists trips, k. split; [exact Hrep|]. split; [exact Hk|].
  unfold loadSavedTripsFrom, tryCatch, bind at 1. rewrite Hrun.
  unfold persistTrips. run_handler.
  destruct (existsb _ entries); [|reflexivity].
  destruct (Env.storageFits env trips); reflexivity.
Qed.

(** X24: start-up repairs legacy ids and nothing else.  For a stored
    array whose ids are falsy, numbers or strings, [loadSavedTrips]
    returns with as many trips as were stored, in order, each with all
    its fields but the id as stored; a non-empty string id is kept, a
    number is printed, a missing id is generated.  The store is written
    again only when an id had to be repaired, and then with the repaired
    list if it fits; when nothing had to be repaired no id is drawn. *)
Theorem loadSavedTrips_repairs_ids env showNumber entries w :
  Forall (fun entry => repairable (fst entry)) entries ->
  exists w',
    loadSavedTripsFrom env showNumber (StoredTrips entries) w = (Returned tt, w')
    /\ Forall2 (repaired env showNumber) entries (savedTrips w')
    /\ (existsb (fun entry => needsRepair (fst entry)) entries = false ->
        localStorage w' = localStorage w /\ idsDrawn w' = idsDrawn w)
    /\ (existsb (fun entry => needsRepair (fst entry)) entries = true ->
        Env.storageFits env (savedTrips w') = true ->
        localStorage w' = Some (savedTrips w'))
    /\ (localStorage w' = localStorage w \/ localStorage w' = Some (savedTrips w'))
    /\ routeCoordinates w' = routeCoordinates w /\ stamps w' = stamps w.
Proof.
  intros Hall.
  destruct (loadSavedTripsFrom_run env showNumber entries w Hall)
    as (trips & k & Hrep & Hk & Hrun).
  eexists. split; [exact Hrun|]. cbv zeta.
  destruct (existsb _ entries) eqn:Hneeds; cbn [andb].
  - destruct (Env.storageFits env trips) eqn:Hfits; cbn; repeat split;
      try assumption; try discriminate; auto; try congruence.
  - rewrite (Hk eq_refl). cbn. repeat split; try assumption; try discriminate; auto.
Qed.

Lemma loadSavedTrips_repairs_ids_witness :
  exists w',
    loadSavedTripsFrom (Sample.env Sample.route 5) (fun _ => "1700000000000")
      (StoredTrips legacyStore) Sample.initial
    = (Returned tt, w')
    /\ Forall2 (repaired (Sample.env Sample.route 5) (fun _ => "1700000000000"))
         legacyStore (savedTrips w').
Proof.
  destruct (loadSavedTrips_repairs_ids (Sample.env Sample.route 5)
              (fun _ => "1700000000000") legacyStore Sample.initial)
    as (w' & Hrun & Hrep & _).
  - unfold legacyStore.
    apply Forall_cons; [left; reflexivity|].
    apply Forall_cons; [right; left; eexists; reflexivity|].
    apply Forall_cons; [right; right; eexists; reflexivity|].
    apply Forall_nil.
  - exists w'. split; [exact Hrun | exact Hrep].
Defined.

Example startup_on_legacy_store :
  map SavedTrip.id
    (savedTrips (exec (loadSavedTripsFrom (Sample.env Sample.route 5)
                         (fun _ => "1700000000000") (StoredTrips legacyStore))
                   Sample.initial))
  = ["id0"; "1700000000000"; "kept"].
Proof. reflexivity. Qed.

(** X25: what was persisted is what the next start shows, for trips
    whose numbers are all finite (the numbers of the model).  After a
    successful [persistTrips] of such trips with non-empty ids,
    [loadSavedTrips] sets the list of saved trips to exactly those trips;
    it draws no id and does not write the store again.  With nothing in
    the store it changes nothing. *)
Theorem loadSavedTrips_reads_back_persisted env showNumber trips w :
  Forall (fun t => nonEmpty (SavedTrip.id t) = true) trips ->
  Env.storageFits env trips = true ->
  let w1 := exec (persistTrips env trips) w in
  loadSavedTrips env showNumber w1 = (Returned tt, set_savedTrips trips w1)
  /\ (forall w0, localStorage w0 = None ->
        loadSavedTrips env showNumber w0 = (Returned tt, w0)).
Proof.
  intros Hids Hfits w1.
  assert (Hw1 : w1 = set_localStorage (Some trips) w).
  { unfold w1, persistTrips, exec. now rewrite Hfits. }
  split.
  - assert (Hrun : forall w2,
              sanitizeTrips env showNumber (map (fun t => (JStr (SavedTrip.id t), t)) trips) w2
              = (Returned (trips, false), w2)).
    { clear Hfits w w1 Hw1. induction trips as [|t rest IH]; intros w2; [reflexivity|].
      inversion Hids as [|? ? Ht Hrest]; subst.
      cbn [map sanitizeTrips]. unfold bind at 1. unfold sanitizeTrip.
      cbn [truthy]. rewrite Ht. cbn [negb ret]. unfold bind at 1.
      rewrite (IH Hrest). cbn [ret fst snd orb]. now rewrite withId_own. }
    unfold loadSavedTrips, bind at 1, gets, storedItem. rewrite Hw1 at 1.
    cbn [localStorage set_localStorage].
    unfold loadSavedTripsFrom, tryCatch, bind at 1. rewrite Hrun. reflexivity.
  - intros w0 H0. unfold loadSavedTrips, bind, gets, storedItem. now rewrite H0.
Qed.

Lemma loadSavedTrips_reads_back_persisted_witness :
  loadSavedTrips (Sample.env Sample.route 5) (fun _ => "0")
    (exec (persistTrips (Sample.env Sample.route 5) [Sample.old]) Sample.generated)
  = (Returned tt,
     set_savedTrips [Sample.old]
       (exec (persistTrips (Sample.env Sample.route 5) [Sample.old]) Sample.generated)).
Proof.
  refine (proj1 (loadSavedTrips_reads_back_persisted (Sample.env Sample.route 5)
                   (fun _ => "0") [Sample.old] Sample.generated _ eq_refl)).
  repeat constructor.
Defined.

(** ** Downloads *)

Lemma chars_app a b : chars (a +++ b) = chars a ++ chars b.
Proof.
  unfold chars. induction a as [|c a IH]; [reflexivity|].
  cbn [append list_ascii_of_string app]. now rewrite IH.
Qed.

Lemma replaceRuns_no_space inRun s :
  Forall (fun c => isWhiteSpace c = false) (chars (replaceRuns inRun s)).
Proof.
  unfold chars. revert inRun. induction s as [|c s IH]; intros inRun; cbn [replaceRuns].
  - constructor.
  - destruct (isWhiteSpace c) eqn:E.
    + destruct inRun; [apply IH|]. cbn [list_ascii_of_string].
      constructor; [reflexivity|apply IH].
    + cbn [list_ascii_of_string]. constructor; [exact E|apply IH].
Qed.

Lemma replaceRuns_without_space inRun s :
  Forall (fun c => isWhiteSpace c = false) (chars s) -> replaceRuns inRun s = s.
Proof.
  unfold chars. revert inRun. induction s as [|c s IH]; intros inRun H; [reflexivity|].
  cbn [list_ascii_of_string] in H. inversion H as [|? ? Hc Hs]; subst.
  cbn [replaceRuns]. rewrite Hc. now rewrite IH.
Qed.

(** X26: the file name of a downloaded stamp holds no white space,
    whatever the stamp is called; a name without white space goes into
    the file name as it is. *)
Theorem stampFileName_has_no_space stamp :
  Forall (fun c => isWhiteSpace c = false) (chars (stampFileName stamp))
  /\ (Forall (fun c => isWhiteSpace c = false) (chars (Stamp.name stamp)) ->
      stampFileName stamp = "Travel_Stamp_" +++ Stamp.name stamp +++ ".png").
Proof.
  unfold stampFileName, replaceSpaces. split.
  - rewrite !chars_app. apply Forall_app. split; [repeat constructor|].
    apply Forall_app. split; [apply replaceRuns_no_space|repeat constructor].
  - intros H. now rewrite replaceRuns_without_space.
Qed.

Example stampFileName_new_york :
  stampFileName (Stamp.mk "s1" "New   York City" 0%Q "" "" "" None None true)
  = "Travel_Stamp_New_York_City.png".
Proof. reflexivity. Qed.

(** X27: [downloadSelectedStamps] always returns and never changes the
    stamps.  With nothing selected it only shows an alert and does not
    touch [isExporting]; with something selected [isExporting] is false
    when it returns, whether the captures succeed or fail. *)
Theorem downloadSelectedStamps_always_returns env w :
  exists w',
    downloadSelectedStamps env w = (Returned tt, w')
    /\ stamps w' = stamps w
    /\ (filter Stamp.selected (stamps w) = [] ->
        w' = set_alerts (alerts w ++ ["Please select at least one stamp to download."]) w)
    /\ (filter Stamp.selected (stamps w) <> [] -> isExporting w' = false).
Proof.
  unfold downloadSelectedStamps. run_handler.
  destruct (filter Stamp.selected (stamps w)) as [|s rest] eqn:Hsel.
  - eexists. split; [reflexivity|]. repeat split. congruence.
  - destruct (downloadEach_world env (s :: rest) (set_isExporting true w)) as [Hw Hs].
    destruct (downloadEach env (s :: rest) (set_isExporting true w)) as [[[]|e|] w1];
      cbn [fst snd] in Hw, Hs; subst w1.
    + eexists. split; [reflexivity|]. repeat split. discriminate.
    + eexists. split; [reflexivity|]. repeat split. discriminate.
    + now elim Hs.
Qed.

(** X28: exporting the map.  Without the map card [exportMapImage] does
    nothing.  With it, the handler sets [isExporting] and its delayed
    callback clears it whether the capture succeeds, the capture fails or
    reading the canvas fails; an alert is shown in the two failing cases
    only. *)
Theorem exportMapImage_clears_its_flag env w :
  timers w = [] ->
  match Env.captureMap env with
  | None => exportMapImage env w = (Returned tt, w)
  | Some capture =>
      let w1 := exec (exportMapImage env) w in
      let w' := runNext env w1 in
      isExporting w1 = true
      /\ isExporting w' = false
      /\ timers w' = []
      /\ alerts w'
         = alerts w ++ match capture with
                       | Reply (Reply _) => []
                       | _ => ["Could not generate image. Please try again."]
                       end
  end.
Proof.
  intros Htimers. destruct (Env.captureMap env) as [capture|] eqn:Hcap.
  - cbv zeta. unfold exportMapImage. rewrite Hcap. run_handler.
    change (timers (set_isExporting true w)) with (timers w). rewrite Htimers.
    split; [reflexivity|].
    unfold runNext. cbn [timers set_timers app]. unfold runTask, exportMapImage_timeout.
    rewrite Hcap. run_handler.
    destruct capture as [e|[e|image]]; cbn; rewrite ?app_nil_r; repeat split.
  - unfold exportMapImage. now rewrite Hcap.
Qed.

Lemma exportMapImage_clears_its_flag_witness :
  isExporting
    (runNext (Env.mk "" 0%Q (fun _ => "") (fun _ => 0%Q)
                (fun _ => ReplyError Sample.quotaError)
                (fun _ _ => ReplyError Sample.quotaError)
                (fun _ => ReplyError Sample.quotaError)
                (fun _ => None)
                (Some (Reply (ReplyError Sample.quotaError)))
                (fun _ => true))
       (exec (exportMapImage
                (Env.mk "" 0%Q (fun _ => "") (fun _ => 0%Q)
                   (fun _ => ReplyError Sample.quotaError)
                   (fun _ _ => ReplyError Sample.quotaError)
                   (fun _ => ReplyError Sample.quotaError)
                   (fun _ => None)
                   (Some (Reply (ReplyError Sample.quotaError)))
                   (fun _ => true)))
          Sample.generated))
  = false.
Proof.
  exact (proj1 (proj2
    (exportMapImage_clears_its_flag
       (Env.mk "" 0%Q (fun _ => "") (fun _ => 0%Q)
          (fun _ => ReplyError Sample.quotaError)
          (fun _ _ => ReplyError Sample.quotaError)
          (fun _ => ReplyError Sample.quotaError)
          (fun _ => None)
          (Some (Reply (ReplyError Sample.quotaError)))
          (fun _ => true))
       Sample.generated eq_refl))).
Defined.
